(** * MicroPDF: the geometry kernel and the byte buffer of the Python binding

    A shallow embedding of the pure-Python geometry classes and of the
    [Buffer] class found in

      - [benchmarks/cross_language_overhead.py]  (Point, Rect, Matrix, Buffer)
      - [micropdf-py/benchmarks/benchmark.py]    (Point, Rect, IRect, Matrix, Quad)

    together with a model of [merge_pdfs], whose callers are in
    [micropdf-py/tests/test_enhanced.py].  [Matrix.rotate] (through
    [math.cos] and [math.sin]), [Point.distance] (through [** 0.5]) and the
    timing and formatting functions of the two benchmarks are left out:
    nothing below depends on them.

    Python's [float] is IEEE 754 binary64, which is what Rocq's primitive
    [float] is, so the code is embedded once, over an interface of the
    arithmetic it uses, and read at three instances: [binary64] (what the
    interpreter computes), [trapping] (binary64 that stops at the first
    operation that rounds) and [exactQ] (the same formulas over the
    rationals). *)

From Stdlib Require Import Floats ZArith QArith Qabs Bool List String Lia Lqa.
From Stdlib Require Import Init.Byte.
Import ListNotations.

Set Warnings "-inexact-float".
Close Scope Q_scope.

(** ** Python runtime: exceptions and results *)

Inductive exn : Type :=
| ZeroDivisionError
| ValueError (msg : string)
| MicroPDFError (msg : string).

Inductive result (A : Type) : Type :=
| Ok (a : A)
| Raise (e : exn).
Arguments Ok {A} a.
Arguments Raise {A} e.

Definition rbind {A B : Type} (r : result A) (k : A -> result B) : result B :=
  match r with
  | Ok a => k a
  | Raise e => Raise e
  end.

Declare Scope py_scope.
Delimit Scope py_scope with py.
Notation "x <- r ;; k" := (rbind r (fun x => k))
  (at level 61, r at next level, right associativity) : py_scope.

(** ** The arithmetic the code uses

    [float.__add__], [__sub__], [__mul__], [__truediv__] (away from a zero
    divisor), [__neg__], [abs], the comparisons [<], [<=], [==], and the three
    literals that occur in the geometry code: [0.0], [1.0] and [1e-14]. *)

Class Arith (F : Type) : Type := {
  add : F -> F -> F;
  sub : F -> F -> F;
  mul : F -> F -> F;
  quot : F -> F -> F;
  neg : F -> F;
  fabs : F -> F;
  lt : F -> F -> bool;
  le : F -> F -> bool;
  eqf : F -> F -> bool;
  lit_0 : F;
  lit_1 : F;
  lit_1e_14 : F
}.

Infix "+" := add : py_scope.
Infix "-" := sub : py_scope.
Infix "*" := mul : py_scope.
Notation "- x" := (neg x) : py_scope.
Infix "<" := lt : py_scope.
Infix "<=" := le : py_scope.
Infix "==" := eqf (at level 70, no associativity) : py_scope.

(** IEEE 754 binary64: the arithmetic of CPython's [float]. *)
#[global] Instance binary64 : Arith float := {|
  add := PrimFloat.add;
  sub := PrimFloat.sub;
  mul := PrimFloat.mul;
  quot := PrimFloat.div;
  neg := PrimFloat.opp;
  fabs := PrimFloat.abs;
  lt := PrimFloat.ltb;
  le := PrimFloat.leb;
  eqf := PrimFloat.eqb;
  lit_0 := 0%float;
  lit_1 := 1%float;
  lit_1e_14 := 1e-14%float
|}.

Definition Qlt_bool (x y : Q) : bool := negb (Qle_bool y x).

(** Exact rational arithmetic: the same operations with no rounding.  Every
    finite binary64 number is a rational. *)
#[global] Instance exactQ : Arith Q := {|
  add := Qplus;
  sub := Qminus;
  mul := Qmult;
  quot := Qdiv;
  neg := Qopp;
  fabs := Qabs;
  lt := Qlt_bool;
  le := Qle_bool;
  eqf := Qeq_bool;
  lit_0 := 0%Q;
  lit_1 := 1%Q;
  lit_1e_14 := (1 # 100000000000000)%Q
|}.

(** ** Binary64 without rounding

    Every finite binary64 number is an integer multiple of 2^-1074, the
    least positive one: [scaled x] is that integer and [value x] the rational
    number [x] stands for. *)

Definition SFscaled (x : spec_float) : option Z :=
  match x with
  | S754_zero _ => Some 0%Z
  | S754_finite s m e => Some (cond_Zopp s (Zpos m) * 2 ^ (e + 1074))%Z
  | S754_infinity _ | S754_nan => None
  end.

Definition scaled (x : float) : option Z := SFscaled (Prim2SF x).

(** Neither an infinity nor a NaN. *)
Definition finite (x : float) : bool :=
  match scaled x with Some _ => true | None => false end.

Definition value (x : float) : Q :=
  match scaled x with Some z => z # (2 ^ 1074)%positive | None => 0%Q end.

(** [exactly fop qop x y] is the binary64 result [fop x y] when the operands
    and the result are finite and the result is the exact one: its value is
    [qop] of the values of the operands.  It is [None] when the operation
    rounds, overflows or meets a NaN, and [None] is passed on. *)
Definition exactly (fop : float -> float -> float) (qop : Q -> Q -> Q)
    (x y : option float) : option float :=
  match x, y with
  | Some u, Some v =>
      let w := fop u v in
      if finite u && finite v && finite w &&
         Qeq_bool (value w) (qop (value u) (value v))
      then Some w else None
  | _, _ => None
  end.
Arguments exactly fop qop x y : simpl never.

(** Division, which is not exact by a divisor of value zero. *)
Definition exact_quot (x y : option float) : option float :=
  match y with
  | Some v => if Qeq_bool (value v) 0 then None else exactly PrimFloat.div Qdiv x y
  | None => None
  end.
Arguments exact_quot x y : simpl never.

(** A comparison holds when both sides are there and binary64 says so. *)
Definition both (cmp : float -> float -> bool) (x y : option float) : bool :=
  match x, y with
  | Some u, Some v => cmp u v
  | _, _ => false
  end.

(** Binary64 that stops ([None]) at the first sum, difference, product or
    quotient that is not exact.  Negation and [abs] change the sign only. *)
#[global] Instance trapping : Arith (option float) := {|
  add := exactly PrimFloat.add Qplus;
  sub := exactly PrimFloat.sub Qminus;
  mul := exactly PrimFloat.mul Qmult;
  quot := exact_quot;
  neg := option_map PrimFloat.opp;
  fabs := option_map PrimFloat.abs;
  lt := both PrimFloat.ltb;
  le := both PrimFloat.leb;
  eqf := both PrimFloat.eqb;
  lit_0 := Some 0%float;
  lit_1 := Some 1%float;
  lit_1e_14 := Some 1e-14%float
|}.

(** ** Builtins *)

Section Builtins.
Context {F : Type} {A : Arith F}.
Local Open Scope py_scope.

(** [x > y] on floats is [y < x]. *)
Definition gt (x y : F) : bool := y < x.

(** [x] is a number, not a NaN: the one case where [x == x] is false. *)
Definition number (x : F) : bool := x == x.

(** [x / y]: CPython raises [ZeroDivisionError] when the divisor compares
    equal to zero (either sign), and divides otherwise. *)
Definition truediv (x y : F) : result F :=
  if y == lit_0 then Raise ZeroDivisionError else Ok (quot x y).

(** [min(first, *rest)]: CPython keeps the first argument and replaces it
    by a later [item] only when [item < best]. *)
Definition py_min (first : F) (rest : list F) : F :=
  fold_left (fun best item => if item < best then item else best) rest first.

(** [max(first, *rest)]: replaces [best] only when [item > best]. *)
Definition py_max (first : F) (rest : list F) : F :=
  fold_left (fun best item => if gt item best then item else best) rest first.

(** [min(xs)] and [max(xs)] of a list: [ValueError] on the empty list. *)
Definition min_list (xs : list F) : result F :=
  match xs with
  | [] => Raise (ValueError "min() arg is an empty sequence")
  | first :: rest => Ok (py_min first rest)
  end.

Definition max_list (xs : list F) : result F :=
  match xs with
  | [] => Raise (ValueError "max() arg is an empty sequence")
  | first :: rest => Ok (py_max first rest)
  end.
End Builtins.

(** ** Geometry

    The constructors of the Python classes store [float(x)] of each argument;
    the arguments are floats already, on which [float] is the identity. *)

Module Matrix.
Record t (F : Type) : Type := mk { a : F; b : F; c : F; d : F; e : F; f : F }.
Arguments mk {F} a b c d e f.
Arguments a {F} _.
Arguments b {F} _.
Arguments c {F} _.
Arguments d {F} _.
Arguments e {F} _.
Arguments f {F} _.

(** The same matrix in another arithmetic. *)
Definition map {F G : Type} (g : F -> G) (m : t F) : t G :=
  mk (g (a m)) (g (b m)) (g (c m)) (g (d m)) (g (e m)) (g (f m)).

Section Ops.
Context {F : Type} {A : Arith F}.
Local Open Scope py_scope.

Definition identity : t F := mk lit_1 lit_0 lit_0 lit_1 lit_0 lit_0.

Definition scale (sx sy : F) : t F := mk sx lit_0 lit_0 sy lit_0 lit_0.

Definition translate (tx ty : F) : t F := mk lit_1 lit_0 lit_0 lit_1 tx ty.

(** [Matrix.concat], the same in both files. *)
Definition concat (self other : t F) : t F :=
  mk (a self * a other + b self * c other)
     (a self * b other + b self * d other)
     (c self * a other + d self * c other)
     (c self * b other + d self * d other)
     (e self * a other + f self * c other + e other)
     (e self * b other + f self * d other + f other).

(** The matrix [Matrix.invert] builds once [inv_det] is known. *)
Definition adjugate_times (self : t F) (inv_det : F) : t F :=
  mk (d self * inv_det)
     (- b self * inv_det)
     (- c self * inv_det)
     (a self * inv_det)
     ((c self * f self - d self * e self) * inv_det)
     ((b self * e self - a self * f self) * inv_det).

(** The determinant [Matrix.invert] computes first. *)
Definition det (self : t F) : F := a self * d self - b self * c self.

(** [Matrix.invert] of cross_language_overhead.py: [Ok None] is the
    returned [None], [Raise] an exception. *)
Definition invert (self : t F) : result (option (t F)) :=
  let det := a self * d self - b self * c self in
  if fabs det < lit_1e_14 then Ok None
  else
    inv_det <- truediv lit_1 det ;;
    Ok (Some (mk (d self * inv_det)
                 (- b self * inv_det)
                 (- c self * inv_det)
                 (a self * inv_det)
                 ((c self * f self - d self * e self) * inv_det)
                 ((b self * e self - a self * f self) * inv_det))).

(** Coefficient-wise closeness, to state the approximate laws:
    [|x - y| <= tol] on each of the six coefficients. *)
Definition within (tol x y : F) : bool := fabs (x - y) <= tol.

Definition close (tol : F) (m n : t F) : bool :=
  within tol (a m) (a n) && within tol (b m) (b n) &&
  within tol (c m) (c n) && within tol (d m) (d n) &&
  within tol (e m) (e n) && within tol (f m) (f n).

(** Coefficient-wise [==], to compare two matrices ([Matrix] defines no
    [__eq__] of its own). *)
Definition eqb (m n : t F) : bool :=
  (a m == a n) && (b m == b n) && (c m == c n) &&
  (d m == d n) && (e m == e n) && (f m == f n).
End Ops.
End Matrix.

Module Point.
Record t (F : Type) : Type := mk { x : F; y : F }.
Arguments mk {F} x y.
Arguments x {F} _.
Arguments y {F} _.

(** The same point in another arithmetic. *)
Definition map {F G : Type} (g : F -> G) (p : t F) : t G := mk (g (x p)) (g (y p)).

Section Ops.
Context {F : Type} {A : Arith F}.
Local Open Scope py_scope.

(** [Point.transform], the same in both files. *)
Definition transform (self : t F) (m : Matrix.t F) : t F :=
  mk (x self * Matrix.a m + y self * Matrix.c m + Matrix.e m)
     (x self * Matrix.b m + y self * Matrix.d m + Matrix.f m).

(** [Point.__eq__] of benchmark.py. *)
Definition __eq__ (self other : t F) : bool :=
  (x self == x other) && (y self == y other).
End Ops.
End Point.

Module Rect.
Record t (F : Type) : Type := mk { x0 : F; y0 : F; x1 : F; y1 : F }.
Arguments mk {F} x0 y0 x1 y1.
Arguments x0 {F} _.
Arguments y0 {F} _.
Arguments x1 {F} _.
Arguments y1 {F} _.

Section Ops.
Context {F : Type} {A : Arith F}.
Local Open Scope py_scope.

(** benchmark.py *)
Definition width (self : t F) : F := fabs (x1 self - x0 self).

Definition height (self : t F) : F := fabs (y1 self - y0 self).

Definition contains (self : t F) (p : Point.t F) : bool :=
  ((x0 self <= Point.x p) && (Point.x p <= x1 self)) &&
  ((y0 self <= Point.y p) && (Point.y p <= y1 self)).

Definition union (self other : t F) : t F :=
  mk (py_min (x0 self) [x0 other])
     (py_min (y0 self) [y0 other])
     (py_max (x1 self) [x1 other])
     (py_max (y1 self) [y1 other]).

(** [Rect.intersect] of benchmark.py. *)
Definition intersect (self other : t F) : t F :=
  mk (py_max (x0 self) [x0 other])
     (py_max (y0 self) [y0 other])
     (py_min (x1 self) [x1 other])
     (py_min (y1 self) [y1 other]).

(** [Rect.transform] of cross_language_overhead.py: the four corners are
    transformed in line. *)
Definition transform (self : t F) (m : Matrix.t F) : t F :=
  let p1x := x0 self * Matrix.a m + y0 self * Matrix.c m + Matrix.e m in
  let p1y := x0 self * Matrix.b m + y0 self * Matrix.d m + Matrix.f m in
  let p2x := x1 self * Matrix.a m + y0 self * Matrix.c m + Matrix.e m in
  let p2y := x1 self * Matrix.b m + y0 self * Matrix.d m + Matrix.f m in
  let p3x := x0 self * Matrix.a m + y1 self * Matrix.c m + Matrix.e m in
  let p3y := x0 self * Matrix.b m + y1 self * Matrix.d m + Matrix.f m in
  let p4x := x1 self * Matrix.a m + y1 self * Matrix.c m + Matrix.e m in
  let p4y := x1 self * Matrix.b m + y1 self * Matrix.d m + Matrix.f m in
  mk (py_min p1x [p2x; p3x; p4x])
     (py_min p1y [p2y; p3y; p4y])
     (py_max p1x [p2x; p3x; p4x])
     (py_max p1y [p2y; p3y; p4y]).

(** The four corners (x0,y0), (x1,y0), (x0,y1), (x1,y1), each transformed by
    [m]: the list [corners] of benchmark.py's [Rect.transform]. *)
Definition corners (self : t F) (m : Matrix.t F) : list (Point.t F) :=
  [ Point.transform (Point.mk (x0 self) (y0 self)) m;
    Point.transform (Point.mk (x1 self) (y0 self)) m;
    Point.transform (Point.mk (x0 self) (y1 self)) m;
    Point.transform (Point.mk (x1 self) (y1 self)) m ].

(** [Rect.transform] of benchmark.py: through [Point.transform] and
    [min]/[max] of the coordinate lists. *)
Definition transform_corners (self : t F) (m : Matrix.t F) : result (t F) :=
  let corners := corners self m in
  let xs := map Point.x corners in
  let ys := map Point.y corners in
  min_x <- min_list xs ;;
  min_y <- min_list ys ;;
  max_x <- max_list xs ;;
  max_y <- max_list ys ;;
  Ok (mk min_x min_y max_x max_y).

(** Component-wise [==], to compare two rectangles ([Rect] defines no
    [__eq__] of its own). *)
Definition eqb (r s : t F) : bool :=
  (x0 r == x0 s) && (y0 r == y0 s) && (x1 r == x1 s) && (y1 r == y1 s).

(** The vocabulary of the statements about rectangles.  A rectangle is
    [normalized] when [x0 <= x1] and [y0 <= y1], [inverted] when [x0 > x1] or
    [y0 > y1]; its coordinates are [numbers] when none is a NaN; two
    rectangles are [separated] when one ends before the other starts, along
    x or along y. *)
Definition normalized (r : t F) : bool := (x0 r <= x1 r) && (y0 r <= y1 r).

Definition inverted (r : t F) : bool := gt (x0 r) (x1 r) || gt (y0 r) (y1 r).

Definition numbers (r : t F) : bool :=
  number (x0 r) && number (y0 r) && number (x1 r) && number (y1 r).

Definition separated (r s : t F) : bool :=
  (x1 r < x0 s) || (x1 s < x0 r) || (y1 r < y0 s) || (y1 s < y0 r).
End Ops.
End Rect.

Module Quad.
Record t (F : Type) : Type :=
  mk { ul : Point.t F; ur : Point.t F; ll : Point.t F; lr : Point.t F }.
Arguments mk {F} ul ur ll lr.
Arguments ul {F} _.
Arguments ur {F} _.
Arguments ll {F} _.
Arguments lr {F} _.

Section Ops.
Context {F : Type} {A : Arith F}.
Local Open Scope py_scope.

Definition from_rect (r : Rect.t F) : t F :=
  mk (Point.mk (Rect.x0 r) (Rect.y0 r))
     (Point.mk (Rect.x1 r) (Rect.y0 r))
     (Point.mk (Rect.x0 r) (Rect.y1 r))
     (Point.mk (Rect.x1 r) (Rect.y1 r)).

Definition to_rect (self : t F) : result (Rect.t F) :=
  let xs := [Point.x (ul self); Point.x (ur self); Point.x (ll self); Point.x (lr self)] in
  let ys := [Point.y (ul self); Point.y (ur self); Point.y (ll self); Point.y (lr self)] in
  min_x <- min_list xs ;;
  min_y <- min_list ys ;;
  max_x <- max_list xs ;;
  max_y <- max_list ys ;;
  Ok (Rect.mk min_x min_y max_x max_y).

Definition transform (self : t F) (m : Matrix.t F) : t F :=
  mk (Point.transform (ul self) m)
     (Point.transform (ur self) m)
     (Point.transform (ll self) m)
     (Point.transform (lr self) m).
End Ops.
End Quad.

(** [IRect] of benchmark.py: the coordinates are Python integers, which are
    unbounded; the constructor stores [int(x)] of each argument, the identity
    on integers. *)
Module IRect.
Record t : Type := mk { x0 : Z; y0 : Z; x1 : Z; y1 : Z }.

Definition width (self : t) : Z := Z.abs (x1 self - x0 self).

Definition height (self : t) : Z := Z.abs (y1 self - y0 self).
End IRect.

(** ** Buffer (cross_language_overhead.py)

    The object has one slot, [_data], a [bytearray].  The methods that mutate
    it take the buffer before the call and return the buffer after it. *)

Module Buffer.
Record t : Type := mk { _data : list byte }.

(** [len(data)] *)
Definition len (data : list byte) : Z := Z.of_nat (List.length data).

(** [bytearray(count)]: [count] zero bytes; [ValueError] when [count] is
    negative. *)
Definition bytearray (count : Z) : result (list byte) :=
  if (count <? 0)%Z then Raise (ValueError "negative count")
  else Ok (repeat x00 (Z.to_nat count)).

(** [target[:] = data]: the slice [0 .. len(target)] is replaced by [data]. *)
Definition setslice_all (target data : list byte) : list byte :=
  firstn 0 target ++ data ++ skipn (List.length target) target.

Definition __init__ (capacity : Z) : result t :=
  (data <- bytearray capacity ;; Ok (mk data))%py.

Definition from_slice (data : list byte) : result t :=
  (buf <- __init__ (len data) ;;
   Ok (mk (setslice_all (_data buf) data)))%py.

Definition append_data (self : t) (data : list byte) : t :=
  mk (_data self ++ data).
End Buffer.

(** ** Document composition: [merge_pdfs]

    [micropdf.merge_pdfs], [Context] and [MicroPDFError] are imported by
    tests/test_enhanced.py; their module is not among the sources.  The world
    below records what the resource contract speaks of: the files, the live
    native handles, and the trace of every allocation and I/O step. *)

Module Merge.
Definition path : Type := string.
Definition page : Type := nat.
Definition document : Type := list page.

Inductive event : Type :=
| ContextCreated (ctx : nat)
| ContextDestroyed (ctx : nat)
| DocumentOpened (p : path) (doc : nat)
| DocumentReleased (doc : nat)
| FileWritten (p : path).

(** Modelled from the spec: the state the resource contract of sections 3
    and 4.3 speaks of.  [files] are the documents on disk, [read_only] the
    paths that cannot be written, [live_contexts] and [live_documents] the
    native handles allocated and not yet released, [fresh] the next handle,
    [trace] every allocation, release and I/O step so far, latest first. *)
Record world : Type := mkWorld {
  files : list (path * document);
  read_only : list path;
  live_contexts : list nat;
  live_documents : list nat;
  fresh : nat;
  trace : list event
}.

(** Computations that change the world and may raise. *)
Definition M (A : Type) : Type := world -> result A * world.

Definition ret {A : Type} (a : A) : M A := fun w => (Ok a, w).

Definition raise {A : Type} (e : exn) : M A := fun w => (Raise e, w).

Definition bind {A B : Type} (c : M A) (k : A -> M B) : M B :=
  fun w =>
    match c w with
    | (Ok a, w') => k a w'
    | (Raise e, w') => (Raise e, w')
    end.

(** [try: body finally: cleanup] *)
Definition finally {A : Type} (body : M A) (cleanup : M unit) : M A :=
  fun w =>
    let (r, w') := body w in
    match cleanup w' with
    | (Ok _, w'') => (r, w'')
    | (Raise e, w'') => (Raise e, w'')
    end.

Declare Scope io_scope.
Delimit Scope io_scope with io.
Notation "x <- c ;; k" := (bind c (fun x => k))
  (at level 61, c at next level, right associativity) : io_scope.
Local Open Scope io_scope.

Fixpoint lookup (p : path) (fs : list (path * document)) : option document :=
  match fs with
  | [] => None
  | (q, d) :: rest => if String.eqb p q then Some d else lookup p rest
  end.

Definition remove_handle (h : nat) (hs : list nat) : list nat :=
  filter (fun k => negb (Nat.eqb k h)) hs.

(** Modelled from the spec: [Context.create()], a fresh native arena. *)
Definition context_create : M nat :=
  fun w =>
    let h := fresh w in
    (Ok h, mkWorld (files w) (read_only w) (h :: live_contexts w)
                   (live_documents w) (S h) (ContextCreated h :: trace w)).

(** Modelled from the spec: [Context.destroy(ctx)], the [ctx.drop()] of the
    tests. *)
Definition context_drop (ctx : nat) : M unit :=
  fun w =>
    (Ok tt, mkWorld (files w) (read_only w) (remove_handle ctx (live_contexts w))
                    (live_documents w) (fresh w) (ContextDestroyed ctx :: trace w)).

(** Modelled from the spec: opening an input as a context-owned document
    resource; it fails when the file is not there. *)
Definition open_document (ctx : nat) (p : path) : M (nat * document) :=
  fun w =>
    match lookup p (files w) with
    | None => (Raise (MicroPDFError "cannot open document"), w)
    | Some d =>
        let h := fresh w in
        (Ok (h, d), mkWorld (files w) (read_only w) (live_contexts w)
                            (h :: live_documents w) (S h)
                            (DocumentOpened p h :: trace w))
    end.

(** Modelled from the spec: the release of an opened document. *)
Definition release_document (doc : nat) : M unit :=
  fun w =>
    (Ok tt, mkWorld (files w) (read_only w) (live_contexts w)
                    (remove_handle doc (live_documents w)) (fresh w)
                    (DocumentReleased doc :: trace w)).

(** Modelled from the spec: writing the output document; it fails when the
    path cannot be written. *)
Definition write_document (p : path) (d : document) : M unit :=
  fun w =>
    if existsb (String.eqb p) (read_only w)
    then (Raise (MicroPDFError "cannot write document"), w)
    else (Ok tt, mkWorld ((p, d) :: files w) (read_only w) (live_contexts w)
                         (live_documents w) (fresh w) (FileWritten p :: trace w)).

(** Modelled from the spec: the inputs are opened in order, each released
    on every exit path, and [k] runs on their page sequences once all are
    open. *)
Fixpoint with_documents (ctx : nat) (inputs : list path)
    (k : list document -> M unit) : M unit :=
  match inputs with
  | [] => k []
  | p :: rest =>
      hd <- open_document ctx p ;;
      finally (with_documents ctx rest (fun ds => k (snd hd :: ds)))
              (release_document (fst hd))
  end.

(** Modelled from the spec: the merge proper, under the context [ctx]: the
    page sequences of the inputs, concatenated in input order, are written to
    [output_path]. *)
Definition merge_with (ctx : nat) (input_paths : list path) (output_path : path) : M unit :=
  with_documents ctx input_paths
    (fun docs => write_document output_path (List.concat docs)).

(** Modelled from the spec: [micropdf.merge_pdfs(input_paths, output_path,
    ctx=None)], whose source is missing.  Section 4.4: the two arguments are
    validated before any I/O or allocation ([InvalidArgument] is the
    [ValueError] the tests expect, with their messages); without [ctx] a
    private context lives for the call and is destroyed on every exit path;
    the inputs are opened in order and their pages concatenated into the
    output; a file that cannot be opened or written is a [MicroPDFError]. *)
Definition merge_pdfs (input_paths : list path) (output_path : path)
    (ctx : option nat) : M unit :=
  match input_paths with
  | [] => raise (ValueError "Input PDF paths cannot be empty")
  | _ :: _ =>
      if String.eqb output_path ""
      then raise (ValueError "Output path cannot be empty")
      else
        match ctx with
        | Some c => merge_with c input_paths output_path
        | None =>
            c <- context_create ;;
            finally (merge_with c input_paths output_path) (context_drop c)
        end
  end.
End Merge.

(** ** Points and matrices "with finite coefficients" *)

Definition finite_point (p : Point.t float) : bool :=
  finite (Point.x p) && finite (Point.y p).

Definition finite_matrix (m : Matrix.t float) : bool :=
  finite (Matrix.a m) && finite (Matrix.b m) && finite (Matrix.c m) &&
  finite (Matrix.d m) && finite (Matrix.e m) && finite (Matrix.f m).

Definition finite_rect (r : Rect.t float) : bool :=
  finite (Rect.x0 r) && finite (Rect.y0 r) && finite (Rect.x1 r) && finite (Rect.y1 r).

(** The rectangle the bounding-box loop of [main] starts from
    ([bbox_calc_10_items] of cross_language_overhead.py), and the loop itself:
    [for item in items: bbox = bbox.union(item)]. *)
Definition bbox_start : Rect.t float :=
  Rect.mk 1e30%float 1e30%float (-1e30)%float (-1e30)%float.

Definition bbox_loop (bbox : Rect.t float) (items : list (Rect.t float)) : Rect.t float :=
  fold_left (fun bbox item => Rect.union bbox item) items bbox.

(** The ten items of [bbox_calc_10_items]:
    [Rect(i * 10, i * 10, 100 + i * 10, 20 + i * 10)] for [i] in [range(10)]. *)
Definition ten_items : list (Rect.t float) :=
  [ Rect.mk 0 0 100 20; Rect.mk 10 10 110 30; Rect.mk 20 20 120 40;
    Rect.mk 30 30 130 50; Rect.mk 40 40 140 60; Rect.mk 50 50 150 70;
    Rect.mk 60 60 160 80; Rect.mk 70 70 170 90; Rect.mk 80 80 180 100;
    Rect.mk 90 90 190 110 ]%float.

(** ** Laws of the comparisons

    What the proofs use of [<], [<=] and [==]: a total preorder on the
    numbers, in which a NaN compares with nothing, and a zero below the
    threshold of [Matrix.invert]. *)

Class ArithLaws {F : Type} (A : Arith F) : Prop := {
  lt_irrefl : forall x, lt x x = false;
  lt_le : forall x y, lt x y = true -> le x y = true;
  le_not_lt : forall x y, le x y = true -> lt y x = false;
  not_lt_le : forall x y,
    number x = true -> number y = true -> lt x y = false -> le y x = true;
  le_refl : forall x, number x = true -> le x x = true;
  le_trans : forall x y z, le x y = true -> le y z = true -> le x z = true;
  le_lt_trans : forall x y z, le x y = true -> lt y z = true -> lt x z = true;
  lt_le_trans : forall x y z, lt x y = true -> le y z = true -> lt x z = true;
  le_number_l : forall x y, le x y = true -> number x = true;
  le_number_r : forall x y, le x y = true -> number y = true;
  le_not_lt_eq : forall x y, le x y = true -> lt x y = false -> eqf x y = true;
  zero_below_threshold : forall x, eqf x lit_0 = true -> lt (fabs x) lit_1e_14 = true
}.

(** ** IEEE comparison on the specification of binary64

    [SFcompare] orders two finite numbers of one sign by exponent, then by
    mantissa; [lexcmp] names that inner comparison. *)

Definition lexcmp (e1 : Z) (m1 : positive) (e2 : Z) (m2 : positive) : comparison :=
  match (e1 ?= e2)%Z with
  | Eq => Pos.compare_cont Eq m1 m2
  | Lt => Lt
  | Gt => Gt
  end.

Inductive lex_spec (e1 : Z) (m1 : positive) (e2 : Z) (m2 : positive) : comparison -> Prop :=
| lex_lt : (e1 < e2 \/ (e1 = e2 /\ (m1 < m2)%positive))%Z -> lex_spec e1 m1 e2 m2 Lt
| lex_eq : e1 = e2 -> m1 = m2 -> lex_spec e1 m1 e2 m2 Eq
| lex_gt : (e2 < e1 \/ (e1 = e2 /\ (m2 < m1)%positive))%Z -> lex_spec e1 m1 e2 m2 Gt.

Definition is_le (c : option comparison) : bool :=
  match c with Some (Lt | Eq) => true | _ => false end.

Definition is_lt (c : option comparison) : bool :=
  match c with Some Lt => true | _ => false end.

Definition is_eq (c : option comparison) : bool :=
  match c with Some Eq => true | _ => false end.

(** The specification of 1.0, and of being a zero or a finite number. *)
Definition SFone : spec_float := S754_finite false 4503599627370496 (-52).

Definition SFfinite (x : spec_float) : bool :=
  match x with S754_zero _ | S754_finite _ _ _ => true | _ => false end.

(** * Proofs *)

(** ** Comparison of binary64 numbers *)

Lemma lexcmp_spec e1 m1 e2 m2 : lex_spec e1 m1 e2 m2 (lexcmp e1 m1 e2 m2).
Proof.
  unfold lexcmp.
  destruct (Z.compare_spec e1 e2) as [He | He | He].
  - change (Pos.compare_cont Eq m1 m2) with (Pos.compare m1 m2).
    destruct (Pos.compare_spec m1 m2); constructor; auto.
  - constructor; auto.
  - constructor; auto.
Qed.

Lemma lexcmp_neg e1 m1 e2 m2 :
  match (e1 ?= e2)%Z with
  | Eq => CompOpp (Pos.compare_cont Eq m1 m2)
  | Lt => Gt
  | Gt => Lt
  end = CompOpp (lexcmp e1 m1 e2 m2).
Proof. unfold lexcmp. destruct (e1 ?= e2)%Z; reflexivity. Qed.

Ltac lex_cases :=
  rewrite ?lexcmp_neg;
  repeat match goal with
  | |- context [match (?e1 ?= ?e2)%Z with
                | Eq => Pos.compare_cont Eq ?m1 ?m2 | Lt => Lt | Gt => Gt end] =>
      change (match (e1 ?= e2)%Z with
              | Eq => Pos.compare_cont Eq m1 m2 | Lt => Lt | Gt => Gt end)
        with (lexcmp e1 m1 e2 m2)
  end;
  repeat match goal with
  | |- context [lexcmp ?e1 ?m1 ?e2 ?m2] => destruct (lexcmp_spec e1 m1 e2 m2)
  end.

Ltac sf_cases :=
  repeat match goal with
  | x : spec_float |- _ => destruct x
  | s : bool |- _ => destruct s
  end; cbn in *; try discriminate; try reflexivity.

Ltac sf_order :=
  sf_cases; lex_cases; cbn in *; intros;
  try discriminate; try reflexivity; exfalso; lia.

Lemma SFle_trans x y z :
  is_le (SFcompare x y) = true -> is_le (SFcompare y z) = true ->
  is_le (SFcompare x z) = true.
Proof. sf_order. Qed.

Lemma SFle_lt_trans x y z :
  is_le (SFcompare x y) = true -> is_lt (SFcompare y z) = true ->
  is_lt (SFcompare x z) = true.
Proof. sf_order. Qed.

Lemma SFlt_le_trans x y z :
  is_lt (SFcompare x y) = true -> is_le (SFcompare y z) = true ->
  is_lt (SFcompare x z) = true.
Proof. sf_order. Qed.

Lemma SFcompare_antisym x y :
  SFcompare y x = option_map CompOpp (SFcompare x y).
Proof. sf_order. Qed.

Lemma SFcompare_refl x :
  SFcompare x x = match x with S754_nan => None | _ => Some Eq end.
Proof. sf_order. Qed.

Lemma SFcompare_number x y c :
  SFcompare x y = Some c -> SFcompare x x = Some Eq /\ SFcompare y y = Some Eq.
Proof.
  rewrite !SFcompare_refl. destruct x, y; cbn; intros H; try discriminate; auto.
Qed.

Lemma SFcompare_total x y :
  SFcompare x x = Some Eq -> SFcompare y y = Some Eq -> SFcompare x y <> None.
Proof.
  rewrite !SFcompare_refl. destruct x, y; cbn; intros; discriminate.
Qed.

Lemma SFzero_below_threshold x :
  is_eq (SFcompare x (Prim2SF 0)) = true ->
  is_lt (SFcompare (SFabs x) (Prim2SF 1e-14)) = true.
Proof.
  replace (Prim2SF 0) with (S754_zero false) by (vm_compute; reflexivity).
  replace (Prim2SF 1e-14) with (S754_finite false 6338253001141147 (-99))
    by (vm_compute; reflexivity).
  destruct x as [s | s | | s m e]; try destruct s;
    cbv [SFcompare SFabs is_eq is_lt]; intros H;
    try discriminate H; reflexivity.
Qed.

Lemma ltb_cmp x y : PrimFloat.ltb x y = is_lt (SFcompare (Prim2SF x) (Prim2SF y)).
Proof. exact (ltb_spec x y). Qed.

Lemma leb_cmp x y : PrimFloat.leb x y = is_le (SFcompare (Prim2SF x) (Prim2SF y)).
Proof. exact (leb_spec x y). Qed.

Lemma eqb_cmp x y : PrimFloat.eqb x y = is_eq (SFcompare (Prim2SF x) (Prim2SF y)).
Proof. exact (FloatAxioms.eqb_spec x y). Qed.

Lemma is_eq_Some c : is_eq c = true -> c = Some Eq.
Proof. destruct c as [[ | | ] | ]; intros H; try discriminate H; reflexivity. Qed.

Ltac float_cmp :=
  cbn [lt le eqf number fabs lit_0 lit_1e_14 binary64];
  unfold number; cbn [eqf binary64];
  rewrite ?ltb_cmp, ?leb_cmp, ?eqb_cmp, ?abs_spec.

#[global] Instance binary64_laws : ArithLaws binary64.
Proof.
  constructor.
  - intros x. float_cmp. rewrite SFcompare_refl. destruct (Prim2SF x); reflexivity.
  - intros x y. float_cmp. destruct (SFcompare _ _) as [[ | | ] | ]; auto.
  - intros x y. float_cmp. rewrite (SFcompare_antisym (Prim2SF x) (Prim2SF y)).
    destruct (SFcompare _ _) as [[ | | ] | ]; cbn; auto.
  - intros x y. float_cmp. intros Hx Hy.
    apply is_eq_Some in Hx. apply is_eq_Some in Hy.
    pose proof (SFcompare_total _ _ Hx Hy) as Ht.
    rewrite (SFcompare_antisym (Prim2SF x) (Prim2SF y)).
    destruct (SFcompare (Prim2SF x) (Prim2SF y)) as [[ | | ] | ]; cbn; auto;
      congruence.
  - intros x. float_cmp. destruct (SFcompare _ _) as [[ | | ] | ]; auto.
  - intros x y z. float_cmp. apply SFle_trans.
  - intros x y z. float_cmp. apply SFle_lt_trans.
  - intros x y z. float_cmp. apply SFlt_le_trans.
  - intros x y. float_cmp.
    destruct (SFcompare (Prim2SF x) (Prim2SF y)) as [c | ] eqn:E;
      cbn; intros H; try discriminate H.
    destruct (SFcompare_number _ _ _ E) as [Hx _]. rewrite Hx. reflexivity.
  - intros x y. float_cmp.
    destruct (SFcompare (Prim2SF x) (Prim2SF y)) as [c | ] eqn:E;
      cbn; intros H; try discriminate H.
    destruct (SFcompare_number _ _ _ E) as [_ Hy]. rewrite Hy. reflexivity.
  - intros x y. float_cmp. destruct (SFcompare _ _) as [[ | | ] | ]; cbn; auto.
  - intros x. float_cmp. apply SFzero_below_threshold.
Qed.

(** ** Comparison of rationals *)

Lemma Qlt_bool_iff x y : Qlt_bool x y = true <-> (x < y)%Q.
Proof.
  unfold Qlt_bool. rewrite negb_true_iff, <- not_true_iff_false, Qle_bool_iff.
  split; [apply Qnot_le_lt | apply Qlt_not_le].
Qed.

Lemma Qlt_bool_false x y : Qlt_bool x y = false <-> (y <= x)%Q.
Proof.
  unfold Qlt_bool. rewrite negb_false_iff. apply Qle_bool_iff.
Qed.

Ltac q_cmp :=
  cbn [lt le eqf number fabs lit_0 lit_1e_14 exactQ];
  unfold number; cbn [eqf exactQ];
  rewrite ?Qlt_bool_iff, ?Qlt_bool_false, ?Qle_bool_iff, ?Qeq_bool_iff.

#[global] Instance exactQ_laws : ArithLaws exactQ.
Proof.
  constructor.
  - intros x. q_cmp. lra.
  - intros x y. q_cmp. lra.
  - intros x y. q_cmp. lra.
  - intros x y. q_cmp. lra.
  - intros x. q_cmp. lra.
  - intros x y z. q_cmp. lra.
  - intros x y z. q_cmp. lra.
  - intros x y z. q_cmp. lra.
  - intros x y. q_cmp. lra.
  - intros x y. q_cmp. lra.
  - intros x y. q_cmp. lra.
  - intros x. q_cmp. intros H. rewrite H. reflexivity.
Qed.

(** ** [min] and [max] over a lawful comparison *)

Section MinMax.
Context {F : Type} {A : Arith F} {L : ArithLaws A}.

Lemma py_min_cons (first item : F) (rest : list F) :
  py_min first (item :: rest) = py_min (if lt item first then item else first) rest.
Proof. reflexivity. Qed.

Lemma py_max_cons (first item : F) (rest : list F) :
  py_max first (item :: rest) = py_max (if gt item first then item else first) rest.
Proof. reflexivity. Qed.

(** The result is one of the arguments. *)
Lemma py_min_In (rest : list F) : forall first, In (py_min first rest) (first :: rest).
Proof.
  induction rest as [ | item rest IH]; intros first.
  - left. reflexivity.
  - rewrite py_min_cons.
    destruct (IH (if lt item first then item else first)) as [H | H].
    + rewrite <- H. destruct (lt item first); [right; left | left]; reflexivity.
    + right. right. exact H.
Qed.

Lemma py_max_In (rest : list F) : forall first, In (py_max first rest) (first :: rest).
Proof.
  induction rest as [ | item rest IH]; intros first.
  - left. reflexivity.
  - rewrite py_max_cons.
    destruct (IH (if gt item first then item else first)) as [H | H].
    + rewrite <- H. destruct (gt item first); [right; left | left]; reflexivity.
    + right. right. exact H.
Qed.

(** One step of [min]: the new best is below the old one and below the item. *)
Lemma min_step (best item : F) :
  number best = true -> number item = true ->
  let best' := if lt item best then item else best in
  number best' = true /\ le best' best = true /\ le best' item = true.
Proof.
  intros Hb Hi. cbv zeta. destruct (lt item best) eqn:E.
  - repeat split; auto using lt_le, le_refl.
  - repeat split; auto using le_refl, not_lt_le.
Qed.

Lemma max_step (best item : F) :
  number best = true -> number item = true ->
  let best' := if gt item best then item else best in
  number best' = true /\ le best best' = true /\ le item best' = true.
Proof.
  intros Hb Hi. cbv zeta. unfold gt. destruct (lt best item) eqn:E.
  - repeat split; auto using lt_le, le_refl.
  - repeat split; auto using le_refl, not_lt_le.
Qed.

(** On numbers, [min] is a lower bound of its arguments and [max] an upper
    bound. *)
Lemma py_min_lower (rest : list F) : forall first,
  (forall v, In v (first :: rest) -> number v = true) ->
  forall v, In v (first :: rest) -> le (py_min first rest) v = true.
Proof.
  induction rest as [ | item rest IH]; intros first Hn v Hv.
  - destruct Hv as [<- | []]. apply le_refl. apply Hn. left. reflexivity.
  - rewrite py_min_cons.
    destruct (min_step first item) as (Hb & H1 & H2);
      [apply Hn; left; reflexivity | apply Hn; right; left; reflexivity | ].
    set (best' := if lt item first then item else first) in *.
    assert (Hn' : forall u, In u (best' :: rest) -> number u = true).
    { intros u [<- | Hu]; [exact Hb | apply Hn; right; right; exact Hu]. }
    assert (Hm : le (py_min best' rest) best' = true).
    { apply IH; [exact Hn' | left; reflexivity]. }
    destruct Hv as [<- | [<- | Hv]].
    + apply le_trans with best'; assumption.
    + apply le_trans with best'; assumption.
    + apply IH; [exact Hn' | right; exact Hv].
Qed.

Lemma py_max_upper (rest : list F) : forall first,
  (forall v, In v (first :: rest) -> number v = true) ->
  forall v, In v (first :: rest) -> le v (py_max first rest) = true.
Proof.
  induction rest as [ | item rest IH]; intros first Hn v Hv.
  - destruct Hv as [<- | []]. apply le_refl. apply Hn. left. reflexivity.
  - rewrite py_max_cons.
    destruct (max_step first item) as (Hb & H1 & H2);
      [apply Hn; left; reflexivity | apply Hn; right; left; reflexivity | ].
    set (best' := if gt item first then item else first) in *.
    assert (Hn' : forall u, In u (best' :: rest) -> number u = true).
    { intros u [<- | Hu]; [exact Hb | apply Hn; right; right; exact Hu]. }
    assert (Hm : le best' (py_max best' rest) = true).
    { apply IH; [exact Hn' | left; reflexivity]. }
    destruct Hv as [<- | [<- | Hv]].
    + apply le_trans with best'; assumption.
    + apply le_trans with best'; assumption.
    + apply IH; [exact Hn' | right; exact Hv].
Qed.

End MinMax.

(** ** Rectangles and quads over a lawful comparison *)

Section RectLaws.
Context {F : Type} {A : Arith F} {L : ArithLaws A}.

(** Both versions of [Rect.transform] compute the same rectangle, and the
    list version raises nothing. *)
Lemma transform_corners_eq (r : Rect.t F) (m : Matrix.t F) :
  Rect.transform_corners r m = Ok (Rect.transform r m).
Proof. reflexivity. Qed.

Lemma transform_box (r : Rect.t F) (m : Matrix.t F) :
  let xs := map Point.x (Rect.corners r m) in
  let ys := map Point.y (Rect.corners r m) in
  let box := Rect.transform r m in
  (In (Rect.x0 box) xs /\ In (Rect.y0 box) ys /\
   In (Rect.x1 box) xs /\ In (Rect.y1 box) ys) /\
  ((forall v, In v xs -> number v = true) ->
   forall v, In v xs -> le (Rect.x0 box) v = true /\ le v (Rect.x1 box) = true) /\
  ((forall v, In v ys -> number v = true) ->
   forall v, In v ys -> le (Rect.y0 box) v = true /\ le v (Rect.y1 box) = true).
Proof.
  cbv zeta. split; [ | split].
  - repeat split; [apply py_min_In | apply py_min_In | apply py_max_In | apply py_max_In].
  - intros Hn v Hv. split; [apply py_min_lower | apply py_max_upper]; assumption.
  - intros Hn v Hv. split; [apply py_min_lower | apply py_max_upper]; assumption.
Qed.

Lemma max2_upper (u v : F) :
  number u = true -> number v = true ->
  le u (py_max u [v]) = true /\ le v (py_max u [v]) = true.
Proof.
  intros Hu Hv.
  assert (Hn : forall w, In w [u; v] -> number w = true).
  { intros w [<- | [<- | []]]; assumption. }
  split; apply py_max_upper; auto; [left | right; left]; reflexivity.
Qed.

Lemma min2_lower (u v : F) :
  number u = true -> number v = true ->
  le (py_min u [v]) u = true /\ le (py_min u [v]) v = true.
Proof.
  intros Hu Hv.
  assert (Hn : forall w, In w [u; v] -> number w = true).
  { intros w [<- | [<- | []]]; assumption. }
  split; apply py_min_lower; auto; [left | right; left]; reflexivity.
Qed.

(** If the one interval ends before the other starts, the greater start is
    above the lesser end. *)
Lemma ends_before_starts (lo1 hi1 lo2 hi2 : F) :
  number lo1 = true -> number hi1 = true -> number lo2 = true -> number hi2 = true ->
  lt hi1 lo2 = true \/ lt hi2 lo1 = true ->
  gt (py_max lo1 [lo2]) (py_min hi1 [hi2]) = true.
Proof.
  intros Hl1 Hh1 Hl2 Hh2 H. unfold gt.
  destruct (max2_upper lo1 lo2 Hl1 Hl2) as [M1 M2].
  destruct (min2_lower hi1 hi2 Hh1 Hh2) as [N1 N2].
  destruct H as [H | H].
  - apply lt_le_trans with lo2; [ | exact M2].
    apply le_lt_trans with hi1; assumption.
  - apply lt_le_trans with lo1; [ | exact M1].
    apply le_lt_trans with hi2; assumption.
Qed.

Lemma intersect_separated (r s : Rect.t F) :
  Rect.numbers r = true -> Rect.numbers s = true ->
  Rect.separated r s = true -> Rect.inverted (Rect.intersect r s) = true.
Proof.
  unfold Rect.numbers, Rect.separated, Rect.inverted, Rect.intersect.
  cbn [Rect.x0 Rect.y0 Rect.x1 Rect.y1].
  rewrite !andb_true_iff, !orb_true_iff.
  intros [[[Rx0 Ry0] Rx1] Ry1] [[[Sx0 Sy0] Sx1] Sy1] [[[H | H] | H] | H].
  - left. apply ends_before_starts; auto.
  - left. apply ends_before_starts; auto.
  - right. apply ends_before_starts; auto.
  - right. apply ends_before_starts; auto.
Qed.

(** A point of both rectangles lies between the greater start and the
    lesser end. *)
Lemma between_bounds (lo1 hi1 lo2 hi2 v : F) :
  le lo1 v = true -> le v hi1 = true -> le lo2 v = true -> le v hi2 = true ->
  lt (py_min hi1 [hi2]) (py_max lo1 [lo2]) = false.
Proof.
  intros L1 H1 L2 H2. apply le_not_lt. apply le_trans with v.
  - destruct (py_max_In [lo2] lo1) as [<- | [<- | []]]; assumption.
  - destruct (py_min_In [hi2] hi1) as [<- | [<- | []]]; assumption.
Qed.

(** When the greater start is not above the lesser end, it lies in both
    intervals. *)
Lemma start_in_both (lo1 hi1 lo2 hi2 : F) :
  number lo1 = true -> number hi1 = true -> number lo2 = true -> number hi2 = true ->
  lt (py_min hi1 [hi2]) (py_max lo1 [lo2]) = false ->
  let v := py_max lo1 [lo2] in
  le lo1 v = true /\ le v hi1 = true /\ le lo2 v = true /\ le v hi2 = true.
Proof.
  intros Hl1 Hh1 Hl2 Hh2 H. cbv zeta.
  destruct (max2_upper lo1 lo2 Hl1 Hl2) as [M1 M2].
  destruct (min2_lower hi1 hi2 Hh1 Hh2) as [N1 N2].
  assert (Hv : le (py_max lo1 [lo2]) (py_min hi1 [hi2]) = true).
  { apply not_lt_le; [ | | exact H].
    - destruct (py_min_In [hi2] hi1) as [<- | [<- | []]]; assumption.
    - destruct (py_max_In [lo2] lo1) as [<- | [<- | []]]; assumption. }
  repeat split; try assumption; apply le_trans with (py_min hi1 [hi2]); assumption.
Qed.

(** The intersection is inverted exactly when no point lies in both
    rectangles. *)
Lemma intersect_inverted_iff (r s : Rect.t F) :
  Rect.numbers r = true -> Rect.numbers s = true ->
  (Rect.inverted (Rect.intersect r s) = true <->
   forall p, Rect.contains r p && Rect.contains s p = false).
Proof.
  unfold Rect.numbers. rewrite !andb_true_iff.
  intros [[[Rx0 Ry0] Rx1] Ry1] [[[Sx0 Sy0] Sx1] Sy1].
  unfold Rect.inverted, Rect.intersect, Rect.contains, gt.
  cbn [Rect.x0 Rect.y0 Rect.x1 Rect.y1]. split.
  - intros Hinv p.
    destruct (_ && _) eqn:E; [exfalso | reflexivity].
    rewrite !andb_true_iff in E.
    destruct E as [[[Ax0 Ax1] [Ay0 Ay1]] [[Bx0 Bx1] [By0 By1]]].
    apply orb_true_iff in Hinv. destruct Hinv as [H | H].
    + rewrite (between_bounds _ _ _ _ _ Ax0 Ax1 Bx0 Bx1) in H. discriminate H.
    + rewrite (between_bounds _ _ _ _ _ Ay0 Ay1 By0 By1) in H. discriminate H.
  - intros Hnone.
    destruct (lt (py_min (Rect.x1 r) [Rect.x1 s]) (py_max (Rect.x0 r) [Rect.x0 s]))
      eqn:Ex; [reflexivity | ].
    destruct (lt (py_min (Rect.y1 r) [Rect.y1 s]) (py_max (Rect.y0 r) [Rect.y0 s]))
      eqn:Ey; [reflexivity | ].
    exfalso.
    destruct (start_in_both _ _ _ _ Rx0 Rx1 Sx0 Sx1 Ex) as (X1 & X2 & X3 & X4).
    destruct (start_in_both _ _ _ _ Ry0 Ry1 Sy0 Sy1 Ey) as (Y1 & Y2 & Y3 & Y4).
    specialize (Hnone (Point.mk (py_max (Rect.x0 r) [Rect.x0 s])
                                (py_max (Rect.y0 r) [Rect.y0 s]))).
    cbn [Point.x Point.y] in Hnone.
    rewrite X1, X2, X3, X4, Y1, Y2, Y3, Y4 in Hnone. discriminate Hnone.
Qed.

(** [min] and [max] of [lo, hi, lo, hi] when [lo <= hi]. *)
Lemma min_max_of_ordered (lo hi : F) :
  le lo hi = true ->
  py_min lo [hi; lo; hi] = lo /\ eqf (py_max lo [hi; lo; hi]) hi = true.
Proof.
  intros H. pose proof (le_not_lt _ _ H) as Hn.
  unfold py_min, py_max, gt. cbn [fold_left].
  rewrite Hn, (lt_irrefl lo), Hn. split; [reflexivity | ].
  destruct (lt lo hi) eqn:E.
  - rewrite Hn, (lt_irrefl hi). exact (le_number_r _ _ H).
  - rewrite (lt_irrefl lo), E. apply le_not_lt_eq; assumption.
Qed.

(** The same for [lo, lo, hi, hi], the order of the y coordinates in
    [Quad.to_rect]. *)
Lemma min_max_of_ordered_pairs (lo hi : F) :
  le lo hi = true ->
  py_min lo [lo; hi; hi] = lo /\ eqf (py_max lo [lo; hi; hi]) hi = true.
Proof.
  intros H. pose proof (le_not_lt _ _ H) as Hn.
  unfold py_min, py_max, gt. cbn [fold_left].
  rewrite (lt_irrefl lo), Hn, Hn. split; [reflexivity | ].
  destruct (lt lo hi) eqn:E.
  - rewrite (lt_irrefl hi). exact (le_number_r _ _ H).
  - rewrite E. apply le_not_lt_eq; assumption.
Qed.

Lemma from_rect_to_rect (r : Rect.t F) :
  Rect.normalized r = true ->
  exists r', Quad.to_rect (Quad.from_rect r) = Ok r' /\ Rect.eqb r' r = true.
Proof.
  unfold Rect.normalized. rewrite andb_true_iff. intros [Hx Hy].
  destruct (min_max_of_ordered _ _ Hx) as [Mx Nx].
  destruct (min_max_of_ordered_pairs _ _ Hy) as [My Ny].
  eexists. split; [reflexivity | ].
  unfold Rect.eqb. cbn [Rect.x0 Rect.y0 Rect.x1 Rect.y1 Quad.from_rect
    Quad.ul Quad.ur Quad.ll Quad.lr Point.x Point.y].
  rewrite Mx, My, Nx, Ny.
  change (eqf (Rect.x0 r) (Rect.x0 r)) with (number (Rect.x0 r)).
  change (eqf (Rect.y0 r) (Rect.y0 r)) with (number (Rect.y0 r)).
  rewrite (le_number_l _ _ Hx), (le_number_l _ _ Hy). reflexivity.
Qed.

End RectLaws.

(** ** Matrices over a lawful comparison *)

Section MatrixLaws.
Context {F : Type} {A : Arith F} {L : ArithLaws A}.

(** [Matrix.invert] never divides by zero: a determinant that compares equal
    to zero is below the threshold. *)
Lemma invert_spec (m : Matrix.t F) :
  Matrix.invert m =
  if lt (fabs (Matrix.det m)) lit_1e_14 then Ok None
  else Ok (Some (Matrix.adjugate_times m (quot lit_1 (Matrix.det m)))).
Proof.
  unfold Matrix.invert, Matrix.det, Matrix.adjugate_times, truediv.
  set (det := sub (mul (Matrix.a m) (Matrix.d m)) (mul (Matrix.b m) (Matrix.c m))).
  destruct (lt (fabs det) lit_1e_14) eqn:E; [reflexivity | ].
  destruct (eqf det lit_0) eqn:Z; [ | reflexivity].
  apply zero_below_threshold in Z. congruence.
Qed.

End MatrixLaws.

(** ** The value of a finite binary64 number

    Two valid finite numbers with the same value are the same number up to
    the sign of zero, so they compare equal. *)

Local Open Scope Z_scope.

Lemma digits2_pos_bounds (m : positive) :
  2 ^ (Zpos (digits2_pos m) - 1) <= Zpos m < 2 ^ Zpos (digits2_pos m).
Proof.
  induction m as [p IH | p IH | ]; cbn [digits2_pos].
  - rewrite Pos2Z.inj_succ.
    replace (Z.succ (Zpos (digits2_pos p)) - 1)
      with (Z.succ (Zpos (digits2_pos p) - 1)) by lia.
    rewrite !Z.pow_succ_r by lia. lia.
  - rewrite Pos2Z.inj_succ.
    replace (Z.succ (Zpos (digits2_pos p)) - 1)
      with (Z.succ (Zpos (digits2_pos p) - 1)) by lia.
    rewrite !Z.pow_succ_r by lia. lia.
  - cbn. lia.
Qed.

(** A valid mantissa has at most 53 bits, and exactly 53 above the least
    exponent. *)
Lemma bounded_facts (m : positive) (e : Z) :
  bounded prec emax m e = true ->
  -1074 <= e /\ Zpos m < 2 ^ 53 /\ (-1074 < e -> 2 ^ 52 <= Zpos m).
Proof.
  unfold bounded, canonical_mantissa, fexp, emin, emax, prec.
  rewrite andb_true_iff, Z.eqb_eq, Z.leb_le. intros [Hc He].
  pose proof (digits2_pos_bounds m) as [Hlo Hhi].
  assert (Hd : Zpos (digits2_pos m) <= 53) by lia.
  split; [lia | ]. split.
  - apply Z.lt_le_trans with (1 := Hhi). apply Z.pow_le_mono_r; lia.
  - intros Hn. assert (Zpos (digits2_pos m) = 53) as Heq by lia.
    rewrite Heq in Hlo. exact Hlo.
Qed.

Lemma higher_exponent_impossible (m1 m2 k1 k2 : Z) :
  0 <= k1 < k2 -> m1 * 2 ^ k1 = m2 * 2 ^ k2 -> m1 < 2 ^ 53 -> 2 ^ 52 <= m2 -> False.
Proof.
  intros Hk Heq H1 H2.
  replace k2 with (k1 + (k2 - k1)) in Heq by lia.
  rewrite Z.pow_add_r in Heq by lia.
  assert (Hp : 0 < 2 ^ k1) by (apply Z.pow_pos_nonneg; lia).
  assert (Hd : 2 ^ 1 <= 2 ^ (k2 - k1)) by (apply Z.pow_le_mono_r; lia).
  assert (Hm : m1 = m2 * 2 ^ (k2 - k1)).
  { apply Z.mul_reg_r with (2 ^ k1); [lia | ]. rewrite Heq. ring. }
  change (2 ^ 1) with 2 in Hd. change (2 ^ 53) with (2 * 2 ^ 52) in H1.
  assert (0 < 2 ^ 52) by reflexivity. nia.
Qed.

Lemma same_scaled_same_number (m1 m2 : positive) (e1 e2 : Z) :
  bounded prec emax m1 e1 = true -> bounded prec emax m2 e2 = true ->
  Zpos m1 * 2 ^ (e1 + 1074) = Zpos m2 * 2 ^ (e2 + 1074) ->
  e1 = e2 /\ m1 = m2.
Proof.
  intros B1 B2 Heq.
  apply bounded_facts in B1. destruct B1 as (L1 & U1 & N1).
  apply bounded_facts in B2. destruct B2 as (L2 & U2 & N2).
  assert (He : e1 = e2).
  { destruct (Z.lt_trichotomy e1 e2) as [Hlt | [He | Hgt]]; [ | exact He | ]; exfalso.
    - apply (higher_exponent_impossible (Zpos m1) (Zpos m2) (e1 + 1074) (e2 + 1074));
        lia.
    - apply (higher_exponent_impossible (Zpos m2) (Zpos m1) (e2 + 1074) (e1 + 1074));
        lia. }
  split; [exact He | ]. subst e2.
  assert (Hp : 0 < 2 ^ (e1 + 1074)) by (apply Z.pow_pos_nonneg; lia).
  apply Z.mul_reg_r in Heq; [ | lia]. congruence.
Qed.

Lemma SFscaled_inj (x y : spec_float) (z : Z) :
  valid_binary x = true -> valid_binary y = true ->
  SFscaled x = Some z -> SFscaled y = Some z ->
  is_eq (SFcompare x y) = true.
Proof.
  destruct x as [sx | sx | | sx mx ex], y as [sy | sy | | sy my ey];
    cbn [SFscaled valid_binary]; intros Vx Vy Hx Hy; try discriminate;
    try reflexivity.
  - exfalso. injection Hx as <-. injection Hy as Hy.
    destruct (bounded_facts _ _ Vy) as (L & _).
    assert (0 < 2 ^ (ey + 1074)) by (apply Z.pow_pos_nonneg; lia).
    destruct sy; cbn [cond_Zopp] in Hy; nia.
  - exfalso. injection Hy as <-. injection Hx as Hx.
    destruct (bounded_facts _ _ Vx) as (L & _).
    assert (0 < 2 ^ (ex + 1074)) by (apply Z.pow_pos_nonneg; lia).
    destruct sx; cbn [cond_Zopp] in Hx; nia.
  - injection Hx as Hx. injection Hy as Hy. rewrite <- Hx in Hy. clear Hx.
    destruct (bounded_facts _ _ Vx) as (Lx & _).
    destruct (bounded_facts _ _ Vy) as (Ly & _).
    assert (0 < 2 ^ (ex + 1074)) by (apply Z.pow_pos_nonneg; lia).
    assert (0 < 2 ^ (ey + 1074)) by (apply Z.pow_pos_nonneg; lia).
    assert (Hs : sx = sy /\ Zpos mx * 2 ^ (ex + 1074) = Zpos my * 2 ^ (ey + 1074)).
    { destruct sx, sy; cbn [cond_Zopp] in Hy; split; try reflexivity; try nia. }
    destruct Hs as [<- Hm].
    destruct (same_scaled_same_number _ _ _ _ Vx Vy Hm) as [<- <-].
    cbn [SFcompare]. rewrite Z.compare_refl.
    change (Pos.compare_cont Eq mx mx) with (Pos.compare mx mx).
    rewrite Pos.compare_refl. destruct sx; reflexivity.
Qed.

Lemma SFscaled_opp (x : spec_float) :
  SFscaled (SFopp x) = option_map Z.opp (SFscaled x).
Proof.
  destruct x as [s | s | | s m e]; cbn; try reflexivity.
  destruct s; cbn [negb cond_Zopp]; f_equal; ring.
Qed.

Local Close Scope Z_scope.

Lemma value_eq_eqb (x y : float) :
  finite x = true -> finite y = true -> (value x == value y)%Q ->
  PrimFloat.eqb x y = true.
Proof.
  unfold finite, value, scaled. rewrite eqb_cmp.
  pose proof (Prim2SF_valid x) as Vx. pose proof (Prim2SF_valid y) as Vy.
  destruct (SFscaled (Prim2SF x)) as [zx | ] eqn:Ex; try discriminate.
  destruct (SFscaled (Prim2SF y)) as [zy | ] eqn:Ey; try discriminate.
  intros _ _ Hq. unfold Qeq in Hq. cbn [Qnum Qden] in Hq.
  apply Z.mul_reg_r in Hq; [ | discriminate]. subst zy.
  exact (SFscaled_inj _ _ _ Vx Vy Ex Ey).
Qed.

Lemma value_opp (x : float) : (value (- x) == - value x)%Q.
Proof.
  unfold value, scaled. rewrite opp_spec, SFscaled_opp.
  destruct (SFscaled (Prim2SF x)); reflexivity.
Qed.

Lemma value_1 : (value 1%float == 1)%Q.
Proof. vm_compute. reflexivity. Qed.

Lemma value_0 : (value 0%float == 0)%Q.
Proof. vm_compute. reflexivity. Qed.

(** What a result of the trapping arithmetic tells. *)
Lemma exactly_inv fop qop x y w :
  exactly fop qop x y = Some w ->
  exists u v, x = Some u /\ y = Some v /\ w = fop u v /\ finite w = true /\
              (value w == qop (value u) (value v))%Q.
Proof.
  unfold exactly. destruct x as [u | ], y as [v | ]; try discriminate.
  destruct (finite u && finite v && finite (fop u v) &&
            Qeq_bool (value (fop u v)) (qop (value u) (value v))) eqn:E;
    try discriminate.
  intros H. injection H as <-.
  rewrite !andb_true_iff in E. destruct E as [[[_ _] Hw] Hq].
  exists u, v. repeat split; auto. apply Qeq_bool_iff. exact Hq.
Qed.

Lemma exact_quot_inv x y w :
  exact_quot x y = Some w ->
  exists u v, x = Some u /\ y = Some v /\ w = (u / v)%float /\ finite w = true /\
              ~ (value v == 0)%Q /\ (value w == value u / value v)%Q.
Proof.
  unfold exact_quot. destruct y as [v | ]; try discriminate.
  destruct (Qeq_bool (value v) 0) eqn:Z; try discriminate.
  intros H. apply exactly_inv in H.
  destruct H as (u & v' & -> & Hv & -> & Hf & Hq). injection Hv as <-.
  exists u, v. repeat split; auto.
  intros Hz. apply Qeq_bool_iff in Hz. congruence.
Qed.

(** Takes every equation [_ = Some _] of the trapping arithmetic apart, down
    to the operands. *)
Ltac invert_exact :=
  repeat match goal with
  | H : exactly _ _ _ _ = Some _ |- _ =>
      apply exactly_inv in H;
      let u := fresh "u" in let v := fresh "v" in
      let Hu := fresh "Hu" in let Hv := fresh "Hv" in
      let Hw := fresh "Hw" in let Hf := fresh "Hf" in let Hq := fresh "Hq" in
      destruct H as (u & v & Hu & Hv & Hw & Hf & Hq)
  | H : exact_quot _ _ = Some _ |- _ =>
      apply exact_quot_inv in H;
      let u := fresh "u" in let v := fresh "v" in
      let Hu := fresh "Hu" in let Hv := fresh "Hv" in
      let Hw := fresh "Hw" in let Hf := fresh "Hf" in
      let Hn := fresh "Hn" in let Hq := fresh "Hq" in
      destruct H as (u & v & Hu & Hv & Hw & Hf & Hn & Hq)
  | H : option_map _ ?x = Some _ |- _ =>
      destruct x eqn:?; cbn [option_map] in H; [ | discriminate H]
  | H : Some _ = Some _ |- _ => injection H as H
  | H : ?x = _ |- _ => is_var x; subst x
  | H : _ = ?x |- _ => is_var x; subst x
  end.

(** Replaces the value of each exact result by the operation on the values. *)
Ltac rewrite_values :=
  repeat first
    [ rewrite value_opp | rewrite value_1 | rewrite value_0
    | match goal with H : (value _ == _)%Q |- _ => rewrite H end ].

Ltac rewrite_values_in T :=
  repeat match goal with H : (value _ == _)%Q |- _ => rewrite H in T end.

(** Two finite numbers that compare equal differ by a zero. *)
Lemma SFsub_of_equal (x y : spec_float) :
  SFscaled x <> None -> is_eq (SFcompare x y) = true ->
  SFabs (SF64sub x y) = S754_zero false.
Proof.
  destruct x as [sx | sx | | sx mx ex], y as [sy | sy | | sy my ey];
    cbn [SFscaled]; intros Hx; try congruence;
    try (destruct sx; discriminate); try (destruct sx, sy; discriminate).
  - intros _. destruct sx, sy; reflexivity.
  - destruct sx, sy; cbn [SFcompare]; try discriminate; lex_cases;
      cbn [is_eq CompOpp]; intros Hcmp; try discriminate Hcmp; subst;
      unfold SF64sub, SFsub; rewrite Z.min_id; unfold shl_align;
      rewrite Z.sub_diag; reflexivity.
Qed.

Lemma within_of_eqb (tol x y : float) :
  finite x = true -> (x =? y)%float = true -> (0 <=? tol)%float = true ->
  Matrix.within tol x y = true.
Proof.
  unfold Matrix.within, finite, scaled. cbn [le fabs sub binary64].
  rewrite eqb_cmp, !leb_cmp, abs_spec, sub_spec. intros Hx He Ht.
  rewrite (SFsub_of_equal (Prim2SF x) (Prim2SF y)); auto.
  destruct (SFscaled (Prim2SF x)); congruence.
Qed.

(** ** The two algebraic laws

    Each in exact arithmetic, for all inputs, and in binary64, for the
    inputs on which no operation rounds. *)

Lemma concat_then_transform_exact (p : Point.t Q) (m1 m2 : Matrix.t Q) :
  Point.__eq__ (Point.transform p (Matrix.concat m1 m2))
               (Point.transform (Point.transform p m1) m2) = true.
Proof.
  destruct p as [x y], m1 as [a1 b1 c1 d1 e1 f1], m2 as [a2 b2 c2 d2 e2 f2].
  unfold Point.__eq__, Point.transform, Matrix.concat.
  cbn [Point.x Point.y Matrix.a Matrix.b Matrix.c Matrix.d Matrix.e Matrix.f
       add mul eqf exactQ].
  apply andb_true_iff. split; apply Qeq_bool_iff; ring.
Qed.

Lemma concat_then_transform_no_rounding
    (p : Point.t float) (m1 m2 : Matrix.t float) (l r : Point.t float) :
  Point.transform (Point.map Some p)
    (Matrix.concat (Matrix.map Some m1) (Matrix.map Some m2)) = Point.map Some l ->
  Point.transform (Point.transform (Point.map Some p) (Matrix.map Some m1))
    (Matrix.map Some m2) = Point.map Some r ->
  Point.transform p (Matrix.concat m1 m2) = l /\
  Point.transform (Point.transform p m1) m2 = r /\
  Point.__eq__ l r = true.
Proof.
  destruct p as [x y], m1 as [a1 b1 c1 d1 e1 f1], m2 as [a2 b2 c2 d2 e2 f2],
    l as [lx ly], r as [rx ry].
  unfold Point.transform, Matrix.concat, Point.map, Matrix.map, Point.__eq__.
  cbn [Point.x Point.y Matrix.a Matrix.b Matrix.c Matrix.d Matrix.e Matrix.f
       add mul eqf trapping binary64].
  intros Hl Hr. injection Hl as Hlx Hly. injection Hr as Hrx Hry.
  invert_exact.
  split; [reflexivity | ]. split; [reflexivity | ].
  apply andb_true_iff; split; apply value_eq_eqb; try assumption;
    rewrite_values; ring.
Qed.

Lemma concat_inverse_exact (m m' : Matrix.t Q) (tol : Q) :
  Matrix.invert m = Ok (Some m') ->
  (0 <= tol)%Q ->
  Matrix.close tol (Matrix.concat m m') Matrix.identity = true.
Proof.
  intros Hinv Htol. rewrite (invert_spec m) in Hinv.
  destruct (lt (fabs (Matrix.det m)) lit_1e_14) eqn:E; [discriminate Hinv | ].
  injection Hinv as <-.
  assert (Hdet : ~ (Matrix.det m == 0)%Q).
  { intros Z. apply Qeq_bool_iff in Z.
    apply (zero_below_threshold (A := exactQ)) in Z. congruence. }
  clear E. destruct m as [a b c d e f].
  unfold Matrix.det in *. unfold Matrix.close, Matrix.within, Matrix.concat,
    Matrix.adjugate_times, Matrix.identity.
  cbn [Matrix.a Matrix.b Matrix.c Matrix.d Matrix.e Matrix.f
       add sub mul quot neg fabs le lit_0 lit_1 exactQ] in *.
  assert (Hz : forall u : Q, (u == 0)%Q -> Qle_bool (Qabs u) tol = true).
  { intros u Hu. apply Qle_bool_iff. rewrite Hu. exact Htol. }
  rewrite !andb_true_iff. repeat split; apply Hz; field; exact Hdet.
Qed.

Lemma concat_inverse_no_rounding (m i p : Matrix.t float) (tol : float) :
  Matrix.invert (Matrix.map Some m) = Ok (Some (Matrix.map Some i)) ->
  Matrix.concat (Matrix.map Some m) (Matrix.map Some i) = Matrix.map Some p ->
  (0 <=? tol)%float = true ->
  Matrix.invert m = Ok (Some i) /\
  Matrix.concat m i = p /\
  Matrix.close tol p Matrix.identity = true.
Proof.
  destruct m as [a b c d e f], i as [ia ib ic id ie jf], p as [pa pb pc pd pe pf].
  intros Hinv Hcat Htol.
  unfold Matrix.invert, truediv, Matrix.map in Hinv.
  cbn [Matrix.a Matrix.b Matrix.c Matrix.d Matrix.e Matrix.f
       add sub mul quot neg fabs lt eqf lit_0 lit_1 lit_1e_14 trapping] in Hinv.
  set (det := exactly PrimFloat.sub Qminus _ _) in Hinv.
  destruct (both PrimFloat.ltb (option_map abs det) (Some 1e-14%float)) eqn:Elt;
    [discriminate Hinv | ].
  destruct (both PrimFloat.eqb det (Some 0%float)) eqn:Ez; [discriminate Hinv | ].
  cbn [rbind] in Hinv. injection Hinv as Ha Hb Hc Hd He Hf.
  apply exactly_inv in Ha. destruct Ha as (u & v & Hu & Hv & -> & Hfa & Hqa).
  injection Hu as <-. apply exact_quot_inv in Hv.
  destruct Hv as (one & dv & Hone & Hdet & -> & Hfi & Hnz & Hqi).
  injection Hone as <-. rewrite Hdet in *.
  cbn [both option_map] in Elt, Ez.
  subst det. invert_exact. rewrite_values_in Hnz.
  unfold Matrix.concat, Matrix.map in Hcat.
  cbn [Matrix.a Matrix.b Matrix.c Matrix.d Matrix.e Matrix.f add mul trapping] in Hcat.
  injection Hcat as Ha Hb Hc Hd He Hf'. invert_exact.
  split; [ | split].
  - rewrite (invert_spec (A := binary64)).
    unfold Matrix.det, Matrix.adjugate_times.
    cbn [Matrix.a Matrix.b Matrix.c Matrix.d Matrix.e Matrix.f
         add sub mul quot neg fabs lt lit_1 lit_1e_14 binary64].
    rewrite Elt. reflexivity.
  - reflexivity.
  - unfold Matrix.close, Matrix.identity.
    cbn [Matrix.a Matrix.b Matrix.c Matrix.d Matrix.e Matrix.f lit_0 lit_1 binary64].
    rewrite !andb_true_iff.
    repeat split; apply within_of_eqb; try assumption;
      apply value_eq_eqb; try assumption; try reflexivity;
      rewrite_values; field; exact Hnz.
Qed.

(** * The claims *)

(** Two runs of the embedding on the values of the benchmarks. *)
Example scale_point :
  Point.transform (Point.mk 10%float 20%float) (Matrix.scale 2%float 2%float) =
  Point.mk 20%float 40%float.
Proof. vm_compute. reflexivity. Qed.

Example union_of_overlapping :
  Rect.union (Rect.mk 0%float 0%float 100%float 100%float)
             (Rect.mk 50%float 50%float 150%float 150%float) =
  Rect.mk 0%float 0%float 150%float 150%float.
Proof. vm_compute. reflexivity. Qed.

(** C1, as stated, fails in binary64: with p = Point(0.1, 0.1),
    m1 = Matrix.scale(0.1, 0.1) and m2 = Matrix.scale(0.3, 0.3), all finite,
    the composed matrix sends p to x = 0.1 * 0.03 = 0.003, while the two
    transforms in sequence give (0.1 * 0.1) * 0.3 = 0.0030000000000000005;
    the two points do not compare equal. *)
Lemma C1_binary64_counterexample :
  let p : Point.t float := Point.mk 0.1%float 0.1%float in
  let m1 : Matrix.t float := Matrix.scale 0.1%float 0.1%float in
  let m2 : Matrix.t float := Matrix.scale 0.3%float 0.3%float in
  finite_point p = true /\ finite_matrix m1 = true /\ finite_matrix m2 = true /\
  Point.transform p (Matrix.concat m1 m2) = Point.mk 0.003%float 0.003%float /\
  Point.transform (Point.transform p m1) m2 =
    Point.mk 0.0030000000000000005%float 0.0030000000000000005%float /\
  Point.__eq__ (Point.transform p (Matrix.concat m1 m2))
               (Point.transform (Point.transform p m1) m2) = false.
Proof. vm_compute. repeat split. Qed.

(** C1, amended: applying the composed matrix to a point equals applying
    the two matrices in sequence whenever the arithmetic is exact: for all
    points and matrices over the rationals, and in binary64 for all [p], [m1],
    [m2] on which no product or sum of the two computations rounds (each runs
    to its end, [l] or [r], in the trapping arithmetic). *)
Theorem C1_concat_then_transform :
  (forall (p : Point.t Q) (m1 m2 : Matrix.t Q),
     Point.__eq__ (Point.transform p (Matrix.concat m1 m2))
                  (Point.transform (Point.transform p m1) m2) = true) /\
  (forall (p : Point.t float) (m1 m2 : Matrix.t float) (l r : Point.t float),
     Point.transform (Point.map Some p)
       (Matrix.concat (Matrix.map Some m1) (Matrix.map Some m2)) = Point.map Some l ->
     Point.transform (Point.transform (Point.map Some p) (Matrix.map Some m1))
       (Matrix.map Some m2) = Point.map Some r ->
     Point.__eq__ (Point.transform p (Matrix.concat m1 m2))
                  (Point.transform (Point.transform p m1) m2) = true).
Proof.
  split.
  - exact concat_then_transform_exact.
  - intros p m1 m2 l r Hl Hr.
    destruct (concat_then_transform_no_rounding p m1 m2 l r Hl Hr) as (-> & -> & H).
    exact H.
Qed.

(** C1 in binary64 at p = Point(3, 4), m1 = Matrix(2, 1, 0, 3, 5, 7) and
    m2 = Matrix(0.5, 0, 0, 0.25, 1, 2): nothing rounds, and both computations
    give Point(6.5, 7.5). *)
Lemma C1_concat_then_transform_witness :
  let p : Point.t float := Point.mk 3%float 4%float in
  let m1 : Matrix.t float := Matrix.mk 2%float 1%float 0%float 3%float 5%float 7%float in
  let m2 : Matrix.t float := Matrix.mk 0.5%float 0%float 0%float 0.25%float 1%float 2%float in
  Point.transform p (Matrix.concat m1 m2) = Point.mk 6.5%float 7.5%float /\
  Point.__eq__ (Point.transform p (Matrix.concat m1 m2))
               (Point.transform (Point.transform p m1) m2) = true.
Proof.
  cbv zeta. split; [vm_compute; reflexivity | ].
  apply (proj2 C1_concat_then_transform
           (Point.mk 3%float 4%float)
           (Matrix.mk 2%float 1%float 0%float 3%float 5%float 7%float)
           (Matrix.mk 0.5%float 0%float 0%float 0.25%float 1%float 2%float)
           (Point.mk 6.5%float 7.5%float) (Point.mk 6.5%float 7.5%float));
    vm_compute; reflexivity.
Defined.

(** C2: [invert] returns [None] exactly when |a*d - b*c| < 1e-14, the fixed
    threshold; otherwise it returns the adjugate scaled by 1/det, and in no
    case does it raise. *)
Theorem C2_invert_threshold (m : Matrix.t float) :
  let det := (Matrix.a m * Matrix.d m - Matrix.b m * Matrix.c m)%float in
  (Matrix.invert m = Ok None <-> (abs det <? 1e-14)%float = true) /\
  ((abs det <? 1e-14)%float = false ->
   Matrix.invert m = Ok (Some (Matrix.adjugate_times m (1 / det)%float))) /\
  ((1e-14 <=? abs det)%float = true -> exists m', Matrix.invert m = Ok (Some m')) /\
  (forall e, Matrix.invert m <> Raise e).
Proof.
  cbv zeta. rewrite (invert_spec m).
  change (lt (fabs (Matrix.det m)) lit_1e_14)
    with (abs (Matrix.a m * Matrix.d m - Matrix.b m * Matrix.c m) <? 1e-14)%float.
  change (quot lit_1 (Matrix.det m))
    with (1 / (Matrix.a m * Matrix.d m - Matrix.b m * Matrix.c m))%float.
  set (det := (Matrix.a m * Matrix.d m - Matrix.b m * Matrix.c m)%float).
  repeat split.
  - destruct (abs det <? 1e-14)%float; [reflexivity | discriminate].
  - intros ->. reflexivity.
  - intros ->. reflexivity.
  - intros H. apply (le_not_lt (A := binary64)) in H.
    cbn [lt binary64] in H. rewrite H. eexists. reflexivity.
  - intros e. destruct (abs det <? 1e-14)%float; discriminate.
Qed.

(** C2 at the benchmarks' Matrix.scale(2, 3), of determinant 6, and at
    Matrix.scale(1e-8, 1e-8), whose determinant 1e-16 is not zero but below
    the fixed threshold. *)
Lemma C2_invert_threshold_witness :
  (exists m', Matrix.invert (Matrix.scale 2%float 3%float) = Ok (Some m')) /\
  Matrix.invert (Matrix.scale 1e-8%float 1e-8%float) = Ok None.
Proof.
  split.
  - apply (C2_invert_threshold (Matrix.scale 2%float 3%float)).
    vm_compute. reflexivity.
  - apply (C2_invert_threshold (Matrix.scale 1e-8%float 1e-8%float)).
    vm_compute. reflexivity.
Defined.

(** C3: [Rect.transform] is the bounding box of the four transformed corners
    (x0,y0), (x1,y0), (x0,y1), (x1,y1).  Both versions of the method return the
    same rectangle [box]; each coordinate of [box] is a coordinate of one of
    the four transformed corners; and, as long as those coordinates are
    numbers, [x0]/[y0] of [box] are below and [x1]/[y1] above the coordinate
    of every transformed corner. *)
Theorem C3_rect_transform_bounding_box (r : Rect.t float) (m : Matrix.t float) :
  let xs := map Point.x (Rect.corners r m) in
  let ys := map Point.y (Rect.corners r m) in
  let box := Rect.transform r m in
  Rect.transform_corners r m = Ok box /\
  (In (Rect.x0 box) xs /\ In (Rect.y0 box) ys /\
   In (Rect.x1 box) xs /\ In (Rect.y1 box) ys) /\
  ((forall v, In v xs -> (v =? v)%float = true) ->
   forall v, In v xs ->
     (Rect.x0 box <=? v)%float = true /\ (v <=? Rect.x1 box)%float = true) /\
  ((forall v, In v ys -> (v =? v)%float = true) ->
   forall v, In v ys ->
     (Rect.y0 box <=? v)%float = true /\ (v <=? Rect.y1 box)%float = true).
Proof.
  cbv zeta. split; [apply transform_corners_eq | ].
  exact (transform_box (A := binary64) r m).
Qed.

(** C3 at the unit square turned by a quarter: the corners go to (0,0),
    (0,1), (-1,0), (-1,1), and the box is Rect(-1, 0, 0, 1). *)
Lemma C3_rect_transform_witness :
  let r : Rect.t float := Rect.mk 0%float 0%float 1%float 1%float in
  let m : Matrix.t float := Matrix.mk 0%float 1%float (-1)%float 0%float 0%float 0%float in
  Rect.transform r m = Rect.mk (-1)%float 0%float 0%float 1%float /\
  (forall v, In v (map Point.x (Rect.corners r m)) ->
     (Rect.x0 (Rect.transform r m) <=? v)%float = true /\
     (v <=? Rect.x1 (Rect.transform r m))%float = true).
Proof.
  cbv zeta. split; [vm_compute; reflexivity | ].
  apply (C3_rect_transform_bounding_box
           (Rect.mk 0%float 0%float 1%float 1%float)
           (Matrix.mk 0%float 1%float (-1)%float 0%float 0%float 0%float)).
  intros v [<- | [<- | [<- | [<- | []]]]]; vm_compute; reflexivity.
Defined.

(** Transforming two opposite corners only would not do: for the same
    quarter turn they go to (0,0) and (-1,1), which taken as (x0,y0) and
    (x1,y1) is not the box. *)
Example two_corners_are_not_enough :
  let r : Rect.t float := Rect.mk 0%float 0%float 1%float 1%float in
  let m : Matrix.t float := Matrix.mk 0%float 1%float (-1)%float 0%float 0%float 0%float in
  let p := Point.transform (Point.mk (Rect.x0 r) (Rect.y0 r)) m in
  let q := Point.transform (Point.mk (Rect.x1 r) (Rect.y1 r)) m in
  Rect.eqb (Rect.mk (Point.x p) (Point.y p) (Point.x q) (Point.y q))
           (Rect.transform r m) = false.
Proof. vm_compute. reflexivity. Qed.

(** C4: [intersect] returns the rectangle of the coordinate-wise [max] of
    the lower corners and [min] of the upper corners, where [max(u, v)] is [v]
    when [v > u] and [u] otherwise, and [min(u, v)] is [v] when [v < u] and
    [u] otherwise; it is a total function, no step of which can raise; and
    for two rectangles (of numbers) that do not overlap the result is
    inverted, [x0 > x1] or [y0 > y1]: so it is when one ends before the other
    starts along an axis, and in general when no point is contained in both,
    which is the only case where the result is inverted. *)
Theorem C4_intersect (r1 r2 : Rect.t float) :
  Rect.intersect r1 r2 =
    Rect.mk (if (Rect.x0 r1 <? Rect.x0 r2)%float then Rect.x0 r2 else Rect.x0 r1)
            (if (Rect.y0 r1 <? Rect.y0 r2)%float then Rect.y0 r2 else Rect.y0 r1)
            (if (Rect.x1 r2 <? Rect.x1 r1)%float then Rect.x1 r2 else Rect.x1 r1)
            (if (Rect.y1 r2 <? Rect.y1 r1)%float then Rect.y1 r2 else Rect.y1 r1) /\
  (Rect.numbers r1 = true -> Rect.numbers r2 = true ->
   let r := Rect.intersect r1 r2 in
   let is_inverted :=
     (Rect.x1 r <? Rect.x0 r)%float = true \/ (Rect.y1 r <? Rect.y0 r)%float = true in
   (Rect.separated r1 r2 = true -> is_inverted) /\
   (is_inverted <-> forall p, Rect.contains r1 p && Rect.contains r2 p = false)).
Proof.
  split; [reflexivity | ].
  intros H1 H2. cbv zeta.
  pose proof (intersect_separated (A := binary64) r1 r2 H1 H2) as Hs.
  pose proof (intersect_inverted_iff (A := binary64) r1 r2 H1 H2) as Hi.
  unfold Rect.inverted in Hs, Hi. rewrite orb_true_iff in Hs, Hi.
  split; assumption.
Qed.

(** C4 at the two disjoint squares of the benchmarks. *)
Lemma C4_intersect_witness :
  let r1 : Rect.t float := Rect.mk 0%float 0%float 100%float 100%float in
  let r2 : Rect.t float := Rect.mk 200%float 200%float 300%float 300%float in
  Rect.separated r1 r2 = true /\
  ((Rect.x1 (Rect.intersect r1 r2) <? Rect.x0 (Rect.intersect r1 r2))%float = true \/
   (Rect.y1 (Rect.intersect r1 r2) <? Rect.y0 (Rect.intersect r1 r2))%float = true).
Proof.
  cbv zeta. split; [vm_compute; reflexivity | ].
  destruct (proj2 (C4_intersect (Rect.mk 0%float 0%float 100%float 100%float)
                                (Rect.mk 200%float 200%float 300%float 300%float)))
    as [Hsep _]; [vm_compute; reflexivity | vm_compute; reflexivity | ].
  apply Hsep. vm_compute. reflexivity.
Defined.

(** The coordinates have to be numbers: a NaN compares with nothing, so
    Rect(nan, 0, 0, 1), which contains no point, and Rect(5, 0, 6, 1)
    intersect in Rect(nan, 0, 0, 1), where neither [x0 > x1] nor [y0 > y1]. *)
Example intersect_of_nan :
  let r1 : Rect.t float := Rect.mk nan 0%float 0%float 1%float in
  let r2 : Rect.t float := Rect.mk 5%float 0%float 6%float 1%float in
  Rect.numbers r1 = false /\ Rect.separated r1 r2 = true /\
  Rect.intersect r1 r2 = Rect.mk nan 0%float 0%float 1%float /\
  Rect.inverted (Rect.intersect r1 r2) = false.
Proof. vm_compute. repeat split. Qed.

(** C5, as stated, fails: the intersection of Rect(0,0,100,100) and
    Rect(200,200,300,300) is Rect(200,200,100,100), and [width()] and
    [height()], which take the absolute value of the difference, both return
    100, which is not [<= 0]. *)
Lemma C5_width_counterexample :
  let r : Rect.t float :=
    Rect.intersect (Rect.mk 0%float 0%float 100%float 100%float)
                   (Rect.mk 200%float 200%float 300%float 300%float) in
  Rect.width r = 100%float /\ Rect.height r = 100%float /\
  (Rect.width r <=? 0)%float = false /\ (Rect.height r <=? 0)%float = false.
Proof. vm_compute. repeat split. Qed.

(** C5, amended: that intersection is the inverted Rect(200,200,100,100);
    its signed extents [x1 - x0] and [y1 - y0] are -100, hence non-positive,
    while [width()] and [height()] return their absolute value 100.  The
    emptiness shows in the signed extents, not in [width()]/[height()]. *)
Theorem C5_disjoint_intersection_extents :
  let r : Rect.t float :=
    Rect.intersect (Rect.mk 0%float 0%float 100%float 100%float)
                   (Rect.mk 200%float 200%float 300%float 300%float) in
  r = Rect.mk 200%float 200%float 100%float 100%float /\
  (Rect.x1 r - Rect.x0 r)%float = (-100)%float /\
  (Rect.y1 r - Rect.y0 r)%float = (-100)%float /\
  (Rect.x1 r - Rect.x0 r <=? 0)%float = true /\
  (Rect.y1 r - Rect.y0 r <=? 0)%float = true /\
  Rect.inverted r = true /\
  Rect.width r = 100%float /\ Rect.height r = 100%float.
Proof. vm_compute. repeat split. Qed.

(** C6, as stated, fails in binary64: m = Matrix(8e-06, 0, 0, 1e-06, 421, 653)
    has determinant 8e-12, far above the threshold, so [invert] succeeds; the
    product of m and its computed inverse has f = 1.1920928955078125e-07,
    more than 1e-9 away from the identity's 0. *)
Lemma C6_binary64_counterexample :
  let m : Matrix.t float :=
    Matrix.mk 8e-6%float 0%float 0%float 1e-6%float 421%float 653%float in
  let inv : Matrix.t float :=
    Matrix.mk 125000%float (-0)%float (-0)%float 1000000%float
              (-52625000)%float (-652999999.99999988)%float in
  finite_matrix m = true /\
  (1e-14 <=? abs (Matrix.det m))%float = true /\
  Matrix.invert m = Ok (Some inv) /\
  Matrix.concat m inv =
    Matrix.mk 1%float 0%float 0%float 1%float 0%float 1.1920928955078125e-07%float /\
  Matrix.close 1e-9%float (Matrix.concat m inv) Matrix.identity = false.
Proof. vm_compute. repeat split. Qed.

(** C6, amended: whenever [invert] succeeds on [m], the product
    [m.concat(m.invert())] is within every tolerance [tol >= 0] of the
    identity, 1e-9 included, provided the arithmetic is exact: for all
    matrices over the rationals, and in binary64 for all [m] on which no
    operation of [invert] and of [concat] rounds. *)
Theorem C6_concat_inverse :
  (forall (m m' : Matrix.t Q) (tol : Q),
     Matrix.invert m = Ok (Some m') -> (0 <= tol)%Q ->
     Matrix.close tol (Matrix.concat m m') Matrix.identity = true) /\
  (forall (m i p : Matrix.t float) (tol : float),
     Matrix.invert (Matrix.map Some m) = Ok (Some (Matrix.map Some i)) ->
     Matrix.concat (Matrix.map Some m) (Matrix.map Some i) = Matrix.map Some p ->
     (0 <=? tol)%float = true ->
     Matrix.invert m = Ok (Some i) /\
     Matrix.close tol (Matrix.concat m i) Matrix.identity = true).
Proof.
  split.
  - exact concat_inverse_exact.
  - intros m i p tol Hinv Hcat Htol.
    destruct (concat_inverse_no_rounding m i p tol Hinv Hcat Htol) as (H1 & -> & H3).
    split; assumption.
Qed.

(** C6 in binary64 at m = Matrix(2, 0, 0, 4, 6, 8), whose determinant 8 is
    a power of two: the inverse Matrix(0.5, -0, -0, 0.25, -3, -2) and the
    product are computed without rounding, and the product is within 1e-9
    of the identity. *)
Lemma C6_concat_inverse_witness :
  let m : Matrix.t float := Matrix.mk 2%float 0%float 0%float 4%float 6%float 8%float in
  let i : Matrix.t float :=
    Matrix.mk 0.5%float (-0)%float (-0)%float 0.25%float (-3)%float (-2)%float in
  Matrix.invert m = Ok (Some i) /\
  Matrix.close 1e-9%float (Matrix.concat m i) Matrix.identity = true.
Proof.
  cbv zeta.
  apply (proj2 C6_concat_inverse
           (Matrix.mk 2%float 0%float 0%float 4%float 6%float 8%float)
           (Matrix.mk 0.5%float (-0)%float (-0)%float 0.25%float (-3)%float (-2)%float)
           (Matrix.mk 1%float 0%float 0%float 1%float 0%float 0%float)
           1e-9%float);
    vm_compute; reflexivity.
Defined.

(** C7: for a normalized rectangle [r] ([x0 <= x1] and [y0 <= y1]),
    [Quad.from_rect(r).to_rect()] returns, without raising, a rectangle whose
    four coordinates compare equal to those of [r]. *)
Theorem C7_from_rect_to_rect (r : Rect.t float) :
  (Rect.x0 r <=? Rect.x1 r)%float = true ->
  (Rect.y0 r <=? Rect.y1 r)%float = true ->
  exists r',
    Quad.to_rect (Quad.from_rect r) = Ok r' /\
    (Rect.x0 r' =? Rect.x0 r)%float = true /\
    (Rect.y0 r' =? Rect.y0 r)%float = true /\
    (Rect.x1 r' =? Rect.x1 r)%float = true /\
    (Rect.y1 r' =? Rect.y1 r)%float = true.
Proof.
  intros Hx Hy.
  destruct (from_rect_to_rect (A := binary64) r) as (r' & Hr & He).
  - unfold Rect.normalized. apply andb_true_iff. split; assumption.
  - exists r'. split; [exact Hr | ].
    unfold Rect.eqb in He. rewrite !andb_true_iff in He.
    destruct He as [[[H1 H2] H3] H4]. repeat split; assumption.
Qed.

(** C7 at the page rectangle of the benchmarks, Rect(0, 0, 612, 792). *)
Lemma C7_from_rect_to_rect_witness :
  exists r',
    Quad.to_rect (Quad.from_rect (Rect.mk 0%float 0%float 612%float 792%float)) = Ok r' /\
    (Rect.x0 r' =? 0)%float = true /\ (Rect.y0 r' =? 0)%float = true /\
    (Rect.x1 r' =? 612)%float = true /\ (Rect.y1 r' =? 792)%float = true.
Proof.
  apply (C7_from_rect_to_rect (Rect.mk 0%float 0%float 612%float 792%float));
    vm_compute; reflexivity.
Defined.

(** Normalization is needed: the round trip of Rect(1, 0, 0, 1) yields
    Rect(0, 0, 1, 1). *)
Example from_rect_to_rect_denormalized :
  Quad.to_rect (Quad.from_rect (Rect.mk 1%float 0%float 0%float 1%float)) =
  Ok (Rect.mk 0%float 0%float 1%float 1%float).
Proof. vm_compute. reflexivity. Qed.

(** ** Buffers *)

Lemma setslice_all_replaces (target data : list byte) :
  Buffer.setslice_all target data = data.
Proof.
  unfold Buffer.setslice_all. rewrite skipn_all. cbn [firstn app].
  apply app_nil_r.
Qed.

Lemma len_nonneg (data : list byte) : (Buffer.len data <? 0)%Z = false.
Proof. unfold Buffer.len. apply Z.ltb_ge. apply Nat2Z.is_nonneg. Qed.

(** C8: the buffer built from [d] holds exactly the bytes of [d], so its
    length is [len(d)]; the construction raises nothing.  This holds for
    every byte sequence, the empty one included. *)
Theorem C8_from_slice_copies (d : list byte) :
  exists buf,
    Buffer.from_slice d = Ok buf /\
    Buffer._data buf = d /\
    Buffer.len (Buffer._data buf) = Buffer.len d.
Proof.
  exists (Buffer.mk d).
  unfold Buffer.from_slice, Buffer.__init__, Buffer.bytearray.
  rewrite len_nonneg. cbn [rbind Buffer._data].
  rewrite setslice_all_replaces. repeat split.
Qed.

(** C10: a buffer created with capacity [c >= 0] holds [c] zero bytes, so
    its length is [c], and [append_data] puts the new bytes after them. *)
Theorem C10_capacity_is_content (c : Z) :
  (0 <= c)%Z ->
  exists buf,
    Buffer.__init__ c = Ok buf /\
    Buffer._data buf = repeat x00 (Z.to_nat c) /\
    Buffer.len (Buffer._data buf) = c /\
    forall d, Buffer._data (Buffer.append_data buf d) = repeat x00 (Z.to_nat c) ++ d.
Proof.
  intros Hc. exists (Buffer.mk (repeat x00 (Z.to_nat c))).
  unfold Buffer.__init__, Buffer.bytearray.
  replace (c <? 0)%Z with false by (symmetry; apply Z.ltb_ge; exact Hc).
  cbn [rbind Buffer._data]. repeat split.
  unfold Buffer.len. rewrite repeat_length. apply Z2Nat.id. exact Hc.
Qed.

(** C10 at the benchmark's [Buffer(64)] followed by [append_data] of two
    bytes: 64 zero bytes, then the two. *)
Lemma C10_capacity_is_content_witness :
  exists buf,
    Buffer.__init__ 64 = Ok buf /\
    Buffer.len (Buffer._data buf) = 64%Z /\
    Buffer._data (Buffer.append_data buf [x01; x02]) = repeat x00 64 ++ [x01; x02].
Proof.
  destruct (C10_capacity_is_content 64) as (buf & Hinit & Hdata & Hlen & Happ).
  - lia.
  - exists buf. split; [exact Hinit | ]. split; [exact Hlen | ]. apply Happ.
Defined.

(** ** merge_pdfs *)

(** C9: with no input path or with an empty output path, [merge_pdfs]
    raises a [ValueError] and leaves the world as it was: nothing was read,
    written or allocated, so nothing is left allocated. *)
Theorem C9_merge_pdfs_validates_first
    (input_paths : list Merge.path) (output_path : Merge.path)
    (ctx : option nat) (w : Merge.world) :
  input_paths = [] \/ output_path = EmptyString ->
  exists msg,
    Merge.merge_pdfs input_paths output_path ctx w = (Raise (ValueError msg), w) /\
    (input_paths = [] -> msg = "Input PDF paths cannot be empty"%string) /\
    (input_paths <> [] -> msg = "Output path cannot be empty"%string).
Proof.
  intros [-> | ->].
  - eexists. split; [reflexivity | ]. split; [reflexivity | congruence].
  - destruct input_paths as [ | p rest].
    + eexists. split; [reflexivity | ]. split; [reflexivity | congruence].
    + eexists. split; [reflexivity | ]. split; [discriminate | reflexivity].
Qed.

Local Open Scope string_scope.

(** A world with a two-page and a one-page document and nothing allocated. *)
Definition two_files : Merge.world :=
  Merge.mkWorld [("a.pdf", [1; 2]); ("b.pdf", [3])] [] [] [] 0 [].

(** C9 at the two calls of the tests, [merge_pdfs([], "output.pdf")] and
    [merge_pdfs(["doc1.pdf"], "")]: both raise with the world untouched. *)
Lemma C9_merge_pdfs_validates_first_witness :
  (exists msg,
     Merge.merge_pdfs [] "output.pdf" None two_files = (Raise (ValueError msg), two_files) /\
     ([] = @nil Merge.path -> msg = "Input PDF paths cannot be empty") /\
     ([] <> @nil Merge.path -> msg = "Output path cannot be empty")) /\
  (exists msg,
     Merge.merge_pdfs ["doc1.pdf"] "" None two_files = (Raise (ValueError msg), two_files) /\
     (["doc1.pdf"] = [] -> msg = "Input PDF paths cannot be empty") /\
     (["doc1.pdf"] <> [] -> msg = "Output path cannot be empty")).
Proof.
  split.
  - apply (C9_merge_pdfs_validates_first [] "output.pdf" None two_files).
    left. reflexivity.
  - apply (C9_merge_pdfs_validates_first ["doc1.pdf"] "" None two_files).
    right. reflexivity.
Defined.

(** With valid arguments the call does allocate and do I/O, and releases
    what it allocated: the private context and both documents. *)
Example merge_two_files :
  Merge.merge_pdfs ["a.pdf"; "b.pdf"] "out.pdf" None two_files =
  (Ok tt,
   Merge.mkWorld
     [("out.pdf", [1; 2; 3]); ("a.pdf", [1; 2]); ("b.pdf", [3])]
     [] [] [] 3
     [Merge.ContextDestroyed 0; Merge.DocumentReleased 1; Merge.DocumentReleased 2;
      Merge.FileWritten "out.pdf"; Merge.DocumentOpened "b.pdf" 2;
      Merge.DocumentOpened "a.pdf" 1; Merge.ContextCreated 0]).
Proof. vm_compute. reflexivity. Qed.

(** A missing input is a [MicroPDFError], raised after the documents opened
    so far and the private context have been released. *)
Example merge_missing_input :
  Merge.merge_pdfs ["a.pdf"; "nonexistent2.pdf"] "out.pdf" None two_files =
  (Raise (MicroPDFError "cannot open document"),
   Merge.mkWorld
     [("a.pdf", [1; 2]); ("b.pdf", [3])]
     [] [] [] 2
     [Merge.ContextDestroyed 0; Merge.DocumentReleased 1;
      Merge.DocumentOpened "a.pdf" 1; Merge.ContextCreated 0]).
Proof. vm_compute. reflexivity. Qed.

(** * Further properties of the geometry kernel and the buffer

    Laws the code satisfies beyond the ten above: the identity, the
    translations and the scalings in binary64 with its rounding, the order
    structure of [union], [intersect] and [contains], the bounds of a quad,
    the bounding-box loop of the benchmark, and the buffer's errors. *)

(** ** More laws of rectangles over a lawful comparison *)

Section MoreLaws.
Context {F : Type} {A : Arith F} {L : ArithLaws A}.

Lemma le_antisym (x y : F) : le x y = true -> le y x = true -> eqf x y = true.
Proof.
  intros H1 H2. apply le_not_lt_eq; [exact H1 | ]. apply le_not_lt, H2.
Qed.


(** A lower bound that is reached is what [min] returns, up to [==]; the
    same for an upper bound and [max]. *)
Lemma py_min_is (lo first : F) (rest : list F) :
  (forall v, In v (first :: rest) -> le lo v = true) ->
  (exists v, In v (first :: rest) /\ le v lo = true) ->
  eqf (py_min first rest) lo = true.
Proof.
  intros Hlo (v & Hv & Hle).
  assert (Hn : forall u, In u (first :: rest) -> number u = true).
  { intros u Hu. exact (le_number_r _ _ (Hlo u Hu)). }
  apply le_antisym.
  - apply le_trans with v; [ | exact Hle]. apply py_min_lower; assumption.
  - apply Hlo, py_min_In.
Qed.

Lemma py_max_is (hi first : F) (rest : list F) :
  (forall v, In v (first :: rest) -> le v hi = true) ->
  (exists v, In v (first :: rest) /\ le hi v = true) ->
  eqf (py_max first rest) hi = true.
Proof.
  intros Hhi (v & Hv & Hle).
  assert (Hn : forall u, In u (first :: rest) -> number u = true).
  { intros u Hu. exact (le_number_l _ _ (Hhi u Hu)). }
  apply le_antisym.
  - apply Hhi, py_max_In.
  - apply le_trans with v; [exact Hle | ]. apply py_max_upper; assumption.
Qed.

Lemma py_min_le_py_max (first : F) (rest : list F) :
  (forall v, In v (first :: rest) -> number v = true) ->
  le (py_min first rest) (py_max first rest) = true.
Proof.
  intros Hn. apply le_trans with first.
  - apply py_min_lower; [exact Hn | left; reflexivity].
  - apply py_max_upper; [exact Hn | left; reflexivity].
Qed.

(** [contains], [union] and [intersect]. *)

Lemma contains_iff (r : Rect.t F) (p : Point.t F) :
  Rect.contains r p = true <->
  (le (Rect.x0 r) (Point.x p) = true /\ le (Point.x p) (Rect.x1 r) = true) /\
  (le (Rect.y0 r) (Point.y p) = true /\ le (Point.y p) (Rect.y1 r) = true).
Proof. unfold Rect.contains. rewrite !andb_true_iff. reflexivity. Qed.

Lemma normalized_iff_inhabited (r : Rect.t F) :
  Rect.normalized r = true <-> exists p, Rect.contains r p = true.
Proof.
  unfold Rect.normalized. rewrite andb_true_iff. split.
  - intros [Hx Hy]. exists (Point.mk (Rect.x0 r) (Rect.y0 r)).
    apply contains_iff. cbn [Point.x Point.y].
    repeat split; try assumption; apply le_refl;
      [exact (le_number_l _ _ Hx) | exact (le_number_l _ _ Hy)].
  - intros [p Hp]. apply contains_iff in Hp. destruct Hp as [[X0 X1] [Y0 Y1]].
    split; [apply le_trans with (Point.x p) | apply le_trans with (Point.y p)];
      assumption.
Qed.

Lemma min2_below_first (u v w : F) : le u w = true -> le (py_min u [v]) w = true.
Proof.
  intros H. unfold py_min. cbn [fold_left]. destruct (lt v u) eqn:E; [ | exact H].
  apply le_trans with u; [apply lt_le, E | exact H].
Qed.

Lemma max2_above_first (u v w : F) : le w u = true -> le w (py_max u [v]) = true.
Proof.
  intros H. unfold py_max, gt. cbn [fold_left]. destruct (lt u v) eqn:E; [ | exact H].
  apply le_trans with u; [exact H | apply lt_le, E].
Qed.

Lemma min2_below_second (u v w : F) :
  number u = true -> le v w = true -> le (py_min u [v]) w = true.
Proof.
  intros Hu H. unfold py_min. cbn [fold_left]. destruct (lt v u) eqn:E; [exact H | ].
  apply le_trans with v; [ | exact H].
  apply not_lt_le; [exact (le_number_l _ _ H) | exact Hu | exact E].
Qed.

Lemma max2_above_second (u v w : F) :
  number u = true -> le w v = true -> le w (py_max u [v]) = true.
Proof.
  intros Hu H. unfold py_max, gt. cbn [fold_left]. destruct (lt u v) eqn:E; [exact H | ].
  apply le_trans with v; [exact H | ].
  apply not_lt_le; [exact Hu | exact (le_number_r _ _ H) | exact E].
Qed.

Lemma union_covers_first (r s : Rect.t F) (p : Point.t F) :
  Rect.contains r p = true -> Rect.contains (Rect.union r s) p = true.
Proof.
  rewrite !contains_iff. unfold Rect.union. cbn [Rect.x0 Rect.y0 Rect.x1 Rect.y1].
  intros [[X0 X1] [Y0 Y1]].
  repeat split; auto using min2_below_first, max2_above_first.
Qed.

Lemma union_covers_second (r s : Rect.t F) (p : Point.t F) :
  Rect.numbers r = true ->
  Rect.contains s p = true -> Rect.contains (Rect.union r s) p = true.
Proof.
  unfold Rect.numbers. rewrite !andb_true_iff, !contains_iff.
  unfold Rect.union. cbn [Rect.x0 Rect.y0 Rect.x1 Rect.y1].
  intros [[[Rx0 Ry0] Rx1] Ry1] [[X0 X1] [Y0 Y1]].
  repeat split; auto using min2_below_second, max2_above_second.
Qed.

Lemma min2_number (u v : F) :
  number u = true -> number v = true -> number (py_min u [v]) = true.
Proof.
  intros Hu Hv. destruct (py_min_In [v] u) as [<- | [<- | []]]; assumption.
Qed.

Lemma max2_number (u v : F) :
  number u = true -> number v = true -> number (py_max u [v]) = true.
Proof.
  intros Hu Hv. destruct (py_max_In [v] u) as [<- | [<- | []]]; assumption.
Qed.

Lemma union_numbers (r s : Rect.t F) :
  Rect.numbers r = true -> Rect.numbers s = true ->
  Rect.numbers (Rect.union r s) = true.
Proof.
  unfold Rect.numbers, Rect.union. cbn [Rect.x0 Rect.y0 Rect.x1 Rect.y1].
  rewrite !andb_true_iff. intros [[[Rx0 Ry0] Rx1] Ry1] [[[Sx0 Sy0] Sx1] Sy1].
  repeat split; auto using min2_number, max2_number.
Qed.

Lemma intersect_contains (r s : Rect.t F) (p : Point.t F) :
  Rect.numbers r = true -> Rect.numbers s = true ->
  Rect.contains (Rect.intersect r s) p = Rect.contains r p && Rect.contains s p.
Proof.
  unfold Rect.numbers. rewrite !andb_true_iff.
  intros [[[Rx0 Ry0] Rx1] Ry1] [[[Sx0 Sy0] Sx1] Sy1].
  apply eq_true_iff_eq. rewrite andb_true_iff, !contains_iff.
  unfold Rect.intersect. cbn [Rect.x0 Rect.y0 Rect.x1 Rect.y1].
  destruct (max2_upper (Rect.x0 r) (Rect.x0 s) Rx0 Sx0) as [MX1 MX2].
  destruct (max2_upper (Rect.y0 r) (Rect.y0 s) Ry0 Sy0) as [MY1 MY2].
  destruct (min2_lower (Rect.x1 r) (Rect.x1 s) Rx1 Sx1) as [NX1 NX2].
  destruct (min2_lower (Rect.y1 r) (Rect.y1 s) Ry1 Sy1) as [NY1 NY2].
  split.
  - intros [[X0 X1] [Y0 Y1]]. repeat split; eauto using le_trans.
  - intros [[[X0 X1] [Y0 Y1]] [[X0' X1'] [Y0' Y1']]]. repeat split.
    + destruct (py_max_In [Rect.x0 s] (Rect.x0 r)) as [<- | [<- | []]]; assumption.
    + destruct (py_min_In [Rect.x1 s] (Rect.x1 r)) as [<- | [<- | []]]; assumption.
    + destruct (py_max_In [Rect.y0 s] (Rect.y0 r)) as [<- | [<- | []]]; assumption.
    + destruct (py_min_In [Rect.y1 s] (Rect.y1 r)) as [<- | [<- | []]]; assumption.
Qed.





End MoreLaws.

(** ** Binary64: the operations that do not round

    Multiplying by 1.0 is exact, a product with 0.0 is a zero, adding a zero
    changes no value, and rounding a finite result never yields a NaN. *)

Lemma Prim2SF_1 : Prim2SF 1 = SFone.
Proof. vm_compute. reflexivity. Qed.

Local Open Scope Z_scope.

Lemma canonical_shift (m : positive) (e : Z) :
  bounded prec emax m e = true ->
  fexp prec emax (Zpos (digits2_pos m) + e) = e /\ e <= emax - prec.
Proof.
  unfold bounded, canonical_mantissa. rewrite andb_true_iff, Z.eqb_eq, Z.leb_le.
  auto.
Qed.

Lemma SFmul_one_r (s : bool) (m : positive) (e : Z) :
  bounded prec emax m e = true ->
  SF64mul (S754_finite s m e) SFone = S754_finite s m e.
Proof.
  intros B. destruct (canonical_shift m e B) as [Hc He].
  unfold SF64mul, SFmul, SFone. rewrite xorb_false_r.
  rewrite (Pos.mul_comm m). 
  change (4503599627370496 * m)%positive with (Pos.iter xO m 52).
  assert (Hd : Zdigits2 (Zpos (Pos.iter xO m 52)) = Zpos (digits2_pos m) + 52).
  { cbn. lia. }
  assert (Hs : shr (shr_record_of_loc (Zpos (Pos.iter xO m 52)) loc_Exact) (e + -52) 52
               = ({| shr_m := Zpos m; shr_r := false; shr_s := false |}, e + -52 + 52)).
  { reflexivity. }
  unfold binary_round_aux, shr_fexp.
  rewrite Hd.
  replace (Zpos (digits2_pos m) + 52 + (e + -52)) with (Zpos (digits2_pos m) + e) by lia.
  rewrite Hc. replace (e - (e + -52)) with 52 by lia.
  rewrite Hs. cbn [shr_m loc_of_shr_record round_nearest_even Zdigits2].
  replace (e + -52 + 52) with e by lia.
  rewrite Hc, Z.sub_diag. cbn [shr shr_record_of_loc shr_m].
  apply Z.leb_le in He. rewrite He. reflexivity.
Qed.

Lemma SFmul_one_l (s : bool) (m : positive) (e : Z) :
  bounded prec emax m e = true ->
  SF64mul SFone (S754_finite s m e) = S754_finite s m e.
Proof.
  intros B. rewrite <- (SFmul_one_r s m e B) at 2.
  unfold SF64mul, SFmul, SFone. rewrite xorb_false_r. cbn [xorb].
  rewrite (Pos.mul_comm m), (Z.add_comm e). reflexivity.
Qed.

Lemma shr_1_nonneg (mrs : shr_record) : 0 <= shr_m mrs -> 0 <= shr_m (shr_1 mrs).
Proof.
  destruct mrs as [m r s]. cbn [shr_m]. intros H.
  destruct m as [ | [p | p | ] | p]; cbn; lia.
Qed.

Lemma iter_shr_1_nonneg (n : positive) :
  forall mrs, 0 <= shr_m mrs -> 0 <= shr_m (SpecFloat.iter_pos shr_1 n mrs).
Proof.
  induction n as [n IH | n IH | ]; intros mrs H; cbn [SpecFloat.iter_pos].
  - apply IH, IH, shr_1_nonneg, H.
  - apply IH, IH, H.
  - apply shr_1_nonneg, H.
Qed.

Lemma shr_nonneg (mrs : shr_record) (e n : Z) :
  0 <= shr_m mrs -> 0 <= shr_m (fst (shr mrs e n)).
Proof.
  intros H. destruct n as [ | p | p]; cbn [shr fst]; auto.
  apply iter_shr_1_nonneg, H.
Qed.

Lemma shr_fexp_nonneg (m e : Z) (l : location) :
  0 <= m -> 0 <= shr_m (fst (shr_fexp prec emax m e l)).
Proof.
  intros H. unfold shr_fexp. apply shr_nonneg.
  destruct l as [ | [ | | ]]; exact H.
Qed.

Lemma round_nearest_even_nonneg (m : Z) (l : location) :
  0 <= m -> 0 <= round_nearest_even m l.
Proof.
  intros H. destruct l as [ | [ | | ]]; cbn [round_nearest_even]; try lia.
  destruct (Z.even m); lia.
Qed.

Lemma binary_round_aux_not_nan (s : bool) (m e : Z) (l : location) :
  0 <= m -> binary_round_aux prec emax s m e l <> S754_nan.
Proof.
  intros H. unfold binary_round_aux.
  pose proof (shr_fexp_nonneg m e l H) as H1.
  destruct (shr_fexp prec emax m e l) as [mrs' e']. cbn [fst] in H1.
  pose proof (shr_fexp_nonneg _ e' loc_Exact
                (round_nearest_even_nonneg _ (loc_of_shr_record mrs') H1)) as H2.
  destruct (shr_fexp prec emax _ e' loc_Exact) as [mrs'' e'']. cbn [fst] in H2.
  destruct (shr_m mrs'') as [ | p | p]; try discriminate; try lia.
  destruct (e'' <=? emax - prec); discriminate.
Qed.

Lemma binary_normalize_not_nan (m e : Z) (sz : bool) :
  binary_normalize prec emax m e sz <> S754_nan.
Proof.
  destruct m as [ | p | p]; cbn [binary_normalize]; try discriminate;
    unfold binary_round; destruct (shl_align _ _ _) as [mz ez];
    apply binary_round_aux_not_nan; lia.
Qed.

Local Close Scope Z_scope.

Lemma SFadd_not_nan (x y : spec_float) :
  SFfinite x = true -> y <> S754_nan -> SF64add x y <> S754_nan.
Proof.
  destruct x as [sx | sx | | sx mx ex], y as [sy | sy | | sy my ey];
    cbn [SFfinite]; intros Hx Hy; try discriminate; try congruence;
    unfold SF64add, SFadd; try (destruct sx, sy; discriminate).
  apply binary_normalize_not_nan.
Qed.

Lemma SFmul_not_nan (x y : spec_float) :
  SFfinite x = true -> SFfinite y = true -> SF64mul x y <> S754_nan.
Proof.
  destruct x as [sx | sx | | sx mx ex], y as [sy | sy | | sy my ey];
    cbn [SFfinite]; intros Hx Hy; try discriminate;
    unfold SF64mul, SFmul; try discriminate.
  apply binary_round_aux_not_nan. lia.
Qed.

(** The same on the primitive floats. *)

Local Open Scope float_scope.

Lemma finite_SFfinite (x : float) : finite x = SFfinite (Prim2SF x).
Proof. unfold finite, scaled. destruct (Prim2SF x); reflexivity. Qed.

Lemma SFeq_trans x y z :
  is_eq (SFcompare x y) = true -> is_eq (SFcompare y z) = true ->
  is_eq (SFcompare x z) = true.
Proof. sf_order. Qed.

Lemma eqb_sym (x y : float) : (x =? y) = (y =? x).
Proof.
  rewrite !eqb_cmp, (SFcompare_antisym (Prim2SF x) (Prim2SF y)).
  destruct (SFcompare (Prim2SF x) (Prim2SF y)) as [[ | | ] | ]; reflexivity.
Qed.

Lemma eqb_trans (x y z : float) :
  (x =? y) = true -> (y =? z) = true -> (x =? z) = true.
Proof. rewrite !eqb_cmp. apply SFeq_trans. Qed.

Lemma eqb_leb (x y : float) : (x =? y) = true -> (x <=? y) = true.
Proof.
  rewrite eqb_cmp, leb_cmp.
  destruct (SFcompare _ _) as [[ | | ] | ]; intros H; try discriminate H; reflexivity.
Qed.

Lemma eqb_number_l (x y : float) : (x =? y) = true -> (x =? x) = true.
Proof. intros H. apply (le_number_l (A := binary64) x y). apply eqb_leb, H. Qed.

Lemma eqb_number_r (x y : float) : (x =? y) = true -> (y =? y) = true.
Proof. intros H. apply (le_number_r (A := binary64) x y). apply eqb_leb, H. Qed.

Lemma leb_antisym (x y : float) :
  (x <=? y) = true -> (y <=? x) = true -> (x =? y) = true.
Proof.
  intros H1 H2. apply (le_not_lt_eq (A := binary64)); [exact H1 | ].
  apply (le_not_lt (A := binary64)). exact H2.
Qed.

Lemma finite_number (x : float) : finite x = true -> (x =? x) = true.
Proof.
  rewrite finite_SFfinite, eqb_cmp, SFcompare_refl.
  destruct (Prim2SF x); intros H; try discriminate H; reflexivity.
Qed.

(** [x == 0] says that [x] is a zero, of either sign. *)
Lemma eqb_zero (x : float) :
  (x =? 0) = true <-> exists b, Prim2SF x = S754_zero b.
Proof.
  rewrite eqb_cmp. replace (Prim2SF 0) with (S754_zero false) by (vm_compute; reflexivity).
  destruct (Prim2SF x) as [s | s | | s m e]; cbn; split; intros H;
    try discriminate H; try (destruct s; discriminate H); eauto;
    destruct H as [b H]; discriminate H.
Qed.

Lemma mul_one_r (x : float) : finite x = true -> x * 1 = x.
Proof.
  rewrite finite_SFfinite. intros H. apply Prim2SF_inj.
  rewrite mul_spec, Prim2SF_1. pose proof (Prim2SF_valid x) as V.
  destruct (Prim2SF x) as [s | s | | s m e]; try discriminate H.
  - unfold SF64mul, SFmul, SFone. rewrite xorb_false_r. reflexivity.
  - apply SFmul_one_r. exact V.
Qed.

Lemma mul_one_l (x : float) : finite x = true -> 1 * x = x.
Proof.
  rewrite finite_SFfinite. intros H. apply Prim2SF_inj.
  rewrite mul_spec, Prim2SF_1. pose proof (Prim2SF_valid x) as V.
  destruct (Prim2SF x) as [s | s | | s m e]; try discriminate H.
  - reflexivity.
  - apply SFmul_one_l. exact V.
Qed.

Lemma mul_zero_r (x : float) : finite x = true -> (x * 0 =? 0) = true.
Proof.
  rewrite finite_SFfinite. intros H. apply eqb_zero. rewrite mul_spec.
  replace (Prim2SF 0) with (S754_zero false) by (vm_compute; reflexivity).
  destruct (Prim2SF x) as [s | s | | s m e]; try discriminate H; cbn; eauto.
Qed.

Lemma mul_zero_l (x : float) : finite x = true -> (0 * x =? 0) = true.
Proof.
  rewrite finite_SFfinite. intros H. apply eqb_zero. rewrite mul_spec.
  replace (Prim2SF 0) with (S754_zero false) by (vm_compute; reflexivity).
  destruct (Prim2SF x) as [s | s | | s m e]; try discriminate H; cbn; eauto.
Qed.

Lemma mul_number (x y : float) :
  finite x = true -> finite y = true -> (x * y =? x * y) = true.
Proof.
  rewrite !finite_SFfinite, eqb_cmp, SFcompare_refl, mul_spec. intros Hx Hy.
  pose proof (SFmul_not_nan _ _ Hx Hy) as H.
  destruct (SF64mul _ _); try reflexivity. congruence.
Qed.

Lemma SFadd_zero_r (w : spec_float) (b : bool) :
  w <> S754_nan -> is_eq (SFcompare (SF64add w (S754_zero b)) w) = true.
Proof.
  destruct w as [s | s | | s m e]; intros H; try congruence;
    unfold SF64add, SFadd.
  - destruct s, b; reflexivity.
  - rewrite SFcompare_refl. reflexivity.
  - rewrite SFcompare_refl. reflexivity.
Qed.

Lemma SFadd_zero_l (w : spec_float) (b : bool) :
  w <> S754_nan -> is_eq (SFcompare (SF64add (S754_zero b) w) w) = true.
Proof.
  destruct w as [s | s | | s m e]; intros H; try congruence;
    unfold SF64add, SFadd.
  - destruct s, b; reflexivity.
  - rewrite SFcompare_refl. reflexivity.
  - rewrite SFcompare_refl. reflexivity.
Qed.

Lemma number_not_nan (w : float) : (w =? w) = true -> Prim2SF w <> S754_nan.
Proof.
  rewrite eqb_cmp, SFcompare_refl. destruct (Prim2SF w); cbn; intros H; congruence.
Qed.

Lemma add_zero_r (w z : float) :
  (w =? w) = true -> (z =? 0) = true -> (w + z =? w) = true.
Proof.
  intros Hw Hz. apply eqb_zero in Hz. destruct Hz as [b Hz].
  rewrite eqb_cmp, add_spec, Hz. apply SFadd_zero_r, number_not_nan, Hw.
Qed.

Lemma add_zero_l (w z : float) :
  (w =? w) = true -> (z =? 0) = true -> (z + w =? w) = true.
Proof.
  intros Hw Hz. apply eqb_zero in Hz. destruct Hz as [b Hz].
  rewrite eqb_cmp, add_spec, Hz. apply SFadd_zero_l, number_not_nan, Hw.
Qed.

Lemma SFadd_congr (x x' t : spec_float) :
  is_eq (SFcompare x x') = true -> SFfinite x = true -> t <> S754_nan ->
  is_eq (SFcompare (SF64add x t) (SF64add x' t)) = true.
Proof.
  intros He Hx Ht.
  assert (Hc : x = x' \/ exists b b', x = S754_zero b /\ x' = S754_zero b').
  { destruct x as [s | s | | s m e], x' as [s' | s' | | s' m' e'];
      cbn [SFfinite] in Hx; try discriminate Hx; cbn [SFcompare] in He;
      try discriminate He; try (destruct s; discriminate He);
      try (destruct s'; discriminate He).
    - right. eauto.
    - left. revert He. destruct s, s'; try discriminate; lex_cases;
        cbn [is_eq CompOpp]; intros He; try discriminate He; subst; reflexivity. }
  destruct Hc as [<- | (b & b' & -> & ->)].
  - rewrite SFcompare_refl. pose proof (SFadd_not_nan x t Hx Ht) as Hn.
    destruct (SF64add x t); try reflexivity. congruence.
  - destruct t as [s | s | | s m e]; try congruence; unfold SF64add, SFadd.
    + destruct b, b', s; reflexivity.
    + rewrite SFcompare_refl. reflexivity.
    + rewrite SFcompare_refl. reflexivity.
Qed.

Lemma add_congr (x x' t : float) :
  (x =? x') = true -> finite x = true -> (t =? t) = true ->
  (x + t =? x' + t) = true.
Proof.
  rewrite finite_SFfinite. intros He Hx Ht.
  rewrite eqb_cmp, !add_spec. apply SFadd_congr.
  - rewrite <- eqb_cmp. exact He.
  - exact Hx.
  - apply number_not_nan, Ht.
Qed.

Lemma eqb_finite (x x' : float) :
  (x =? x') = true -> finite x = true -> finite x' = true.
Proof.
  rewrite eqb_cmp, !finite_SFfinite.
  destruct (Prim2SF x) as [s | s | | s m e], (Prim2SF x') as [s' | s' | | s' m' e'];
    cbn; intros He Hx; try discriminate; try reflexivity;
    try (destruct s; discriminate He); try (destruct s, s'; discriminate He).
Qed.

Lemma finite_opp (x : float) : finite (- x) = finite x.
Proof.
  unfold finite, scaled. rewrite opp_spec, SFscaled_opp.
  destruct (SFscaled (Prim2SF x)); reflexivity.
Qed.

(** ** The identity, translations and scalings in binary64 *)

(** [x*1 + y*0 == x] and [x*0 + y*1 == y] on finite numbers: the sums that
    the identity, a scaling and a translation leave of [Point.transform] and
    [Matrix.concat]. *)
Lemma keep_first (x y : float) :
  finite x = true -> finite y = true ->
  (x * 1 + y * 0 =? x) = true /\ (1 * x + 0 * y =? x) = true.
Proof.
  intros Hx Hy. rewrite mul_one_r, mul_one_l by exact Hx.
  split; apply add_zero_r; auto using finite_number, mul_zero_r, mul_zero_l.
Qed.

Lemma keep_second (x y : float) :
  finite x = true -> finite y = true ->
  (x * 0 + y * 1 =? y) = true /\ (0 * x + 1 * y =? y) = true.
Proof.
  intros Hx Hy. rewrite mul_one_r, mul_one_l by exact Hy.
  split; apply add_zero_l; auto using finite_number, mul_zero_r, mul_zero_l.
Qed.

Lemma plus_zero (w x : float) : (w =? x) = true -> (w + 0 =? x) = true.
Proof.
  intros H. apply eqb_trans with w; [ | exact H].
  apply add_zero_r; [exact (eqb_number_l _ _ H) | reflexivity].
Qed.

Lemma zeros_then (w x y : float) :
  finite w = true -> finite x = true -> finite y = true ->
  (0 * x + 0 * y + w =? w) = true.
Proof.
  intros Hw Hx Hy. apply add_zero_l; [apply finite_number, Hw | ].
  apply eqb_trans with (0 * x); [ | apply mul_zero_l, Hx].
  apply add_zero_r; [ | apply mul_zero_l, Hy].
  apply (eqb_number_l _ 0), mul_zero_l, Hx.
Qed.

(** X1: the identity matrix leaves every point with finite coordinates where
    it is: the transformed point compares equal to the point.  (An infinite
    coordinate does not survive: its product with the 0.0 of the matrix is a
    NaN.) *)
Theorem transform_identity (p : Point.t float) :
  finite_point p = true ->
  Point.__eq__ (Point.transform p Matrix.identity) p = true.
Proof.
  destruct p as [x y]. unfold finite_point, Point.__eq__, Point.transform, Matrix.identity.
  cbn [Point.x Point.y Matrix.a Matrix.b Matrix.c Matrix.d Matrix.e Matrix.f
       add mul eqf lit_0 lit_1 binary64].
  rewrite !andb_true_iff. intros [Hx Hy]. split; apply plus_zero.
  - apply keep_first; assumption.
  - apply keep_second; assumption.
Qed.

(** X4: [Matrix.identity()] is neutral for [concat] on both sides: for a
    matrix [m] of finite coefficients, [m.concat(identity)] and
    [identity.concat(m)] have the coefficients of [m], up to [==]. *)
Theorem concat_identity (m : Matrix.t float) :
  finite_matrix m = true ->
  Matrix.eqb (Matrix.concat m Matrix.identity) m = true /\
  Matrix.eqb (Matrix.concat Matrix.identity m) m = true.
Proof.
  destruct m as [a b c d e f].
  unfold finite_matrix, Matrix.eqb, Matrix.concat, Matrix.identity.
  cbn [Matrix.a Matrix.b Matrix.c Matrix.d Matrix.e Matrix.f
       add mul eqf lit_0 lit_1 binary64].
  rewrite !andb_true_iff. intros [[[[[Ha Hb] Hc] Hd] He] Hf].
  split; repeat split.
  - apply keep_first; assumption.
  - apply keep_second; assumption.
  - apply keep_first; assumption.
  - apply keep_second; assumption.
  - apply plus_zero, keep_first; assumption.
  - apply plus_zero, keep_second; assumption.
  - apply (keep_first a c); assumption.
  - apply (keep_first b d); assumption.
  - apply (keep_second a c); assumption.
  - apply (keep_second b d); assumption.
  - apply (zeros_then e a c); assumption.
  - apply (zeros_then f b d); assumption.
Qed.

(** X2: transforming a finite point by [Matrix.translate(tx, ty)] adds the
    offsets: the result compares equal to [Point(x + tx, y + ty)], with the
    one rounding of each sum and no other. *)
Theorem transform_translate (p : Point.t float) (tx ty : float) :
  finite_point p = true -> (tx =? tx) = true -> (ty =? ty) = true ->
  Point.__eq__ (Point.transform p (Matrix.translate tx ty))
               (Point.mk (Point.x p + tx) (Point.y p + ty)) = true.
Proof.
  destruct p as [x y]. unfold finite_point, Point.__eq__, Point.transform, Matrix.translate.
  cbn [Point.x Point.y Matrix.a Matrix.b Matrix.c Matrix.d Matrix.e Matrix.f
       add mul eqf lit_0 lit_1 binary64].
  rewrite !andb_true_iff. intros [Hx Hy] Htx Hty.
  destruct (keep_first x y Hx Hy) as [K1 _]. destruct (keep_second x y Hx Hy) as [K2 _].
  split; apply add_congr; try assumption.
  - rewrite eqb_sym in K1. exact (eqb_finite _ _ K1 Hx).
  - rewrite eqb_sym in K2. exact (eqb_finite _ _ K2 Hy).
Qed.

(** X3: transforming a finite point by [Matrix.scale(sx, sy)] multiplies the
    coordinates: the result compares equal to [Point(x * sx, y * sy)]. *)
Theorem transform_scale (p : Point.t float) (sx sy : float) :
  finite_point p = true -> finite sx = true -> finite sy = true ->
  Point.__eq__ (Point.transform p (Matrix.scale sx sy))
               (Point.mk (Point.x p * sx) (Point.y p * sy)) = true.
Proof.
  destruct p as [x y]. unfold finite_point, Point.__eq__, Point.transform, Matrix.scale.
  cbn [Point.x Point.y Matrix.a Matrix.b Matrix.c Matrix.d Matrix.e Matrix.f
       add mul eqf lit_0 lit_1 binary64].
  rewrite !andb_true_iff. intros [Hx Hy] Hsx Hsy.
  split; apply plus_zero.
  - apply add_zero_r; [apply mul_number; assumption | apply mul_zero_r, Hy].
  - apply add_zero_l; [apply mul_number; assumption | apply mul_zero_r, Hx].
Qed.

(** [Rect.transform] with the identity. *)
Lemma eqb_leb_chain (p x y q : float) :
  (p =? x) = true -> (x <=? y) = true -> (q =? y) = true -> (p <=? q) = true.
Proof.
  intros H1 H2 H3. apply (le_trans (A := binary64)) with x; [apply eqb_leb, H1 | ].
  apply (le_trans (A := binary64)) with y; [exact H2 | ].
  apply eqb_leb. rewrite eqb_sym. exact H3.
Qed.

Lemma leb_refl_of (x y : float) : (x <=? y) = true -> (x <=? x) = true /\ (y <=? y) = true.
Proof.
  intros H. split; apply (le_refl (A := binary64)).
  - exact (le_number_l (A := binary64) _ _ H).
  - exact (le_number_r (A := binary64) _ _ H).
Qed.

(** X6: [Rect.transform] by the identity matrix gives back a normalized
    rectangle of finite coordinates, up to [==] on each coordinate. *)
Theorem rect_transform_identity (r : Rect.t float) :
  finite_rect r = true -> Rect.normalized r = true ->
  Rect.eqb (Rect.transform r Matrix.identity) r = true.
Proof.
  destruct r as [x0 y0 x1 y1].
  unfold finite_rect, Rect.normalized, Rect.eqb, Rect.transform, Matrix.identity.
  cbn [Rect.x0 Rect.y0 Rect.x1 Rect.y1 Matrix.a Matrix.b Matrix.c Matrix.d
       Matrix.e Matrix.f add mul le eqf lit_0 lit_1 binary64].
  rewrite !andb_true_iff. intros [[[F0 G0] F1] G1] [Nx Ny].
  pose proof (plus_zero _ _ (proj1 (keep_first x0 y0 F0 G0))) as P1x.
  pose proof (plus_zero _ _ (proj1 (keep_first x1 y0 F1 G0))) as P2x.
  pose proof (plus_zero _ _ (proj1 (keep_first x0 y1 F0 G1))) as P3x.
  pose proof (plus_zero _ _ (proj1 (keep_first x1 y1 F1 G1))) as P4x.
  pose proof (plus_zero _ _ (proj1 (keep_second x0 y0 F0 G0))) as P1y.
  pose proof (plus_zero _ _ (proj1 (keep_second x1 y0 F1 G0))) as P2y.
  pose proof (plus_zero _ _ (proj1 (keep_second x0 y1 F0 G1))) as P3y.
  pose proof (plus_zero _ _ (proj1 (keep_second x1 y1 F1 G1))) as P4y.
  set (p1x := x0 * 1 + y0 * 0 + 0) in *. set (p2x := x1 * 1 + y0 * 0 + 0) in *.
  set (p3x := x0 * 1 + y1 * 0 + 0) in *. set (p4x := x1 * 1 + y1 * 0 + 0) in *.
  set (p1y := x0 * 0 + y0 * 1 + 0) in *. set (p2y := x1 * 0 + y0 * 1 + 0) in *.
  set (p3y := x0 * 0 + y1 * 1 + 0) in *. set (p4y := x1 * 0 + y1 * 1 + 0) in *.
  destruct (leb_refl_of _ _ Nx) as [Rx0 Rx1]. destruct (leb_refl_of _ _ Ny) as [Ry0 Ry1].
  assert (E : forall p x, (p =? x) = true -> (x <=? p) = true /\ (p <=? x) = true).
  { intros p x H. split; apply eqb_leb; [rewrite eqb_sym | ]; exact H. }
  repeat split.
  - apply (py_min_is (A := binary64)).
    + intros v [<- | [<- | [<- | [<- | []]]]]; cbn [le binary64].
      * apply (E _ _ P1x).
      * apply (eqb_leb_chain x0 x0 x1 p2x); auto. apply finite_number, F0.
      * apply (E _ _ P3x).
      * apply (eqb_leb_chain x0 x0 x1 p4x); auto. apply finite_number, F0.
    + exists p1x. split; [left; reflexivity | apply (E _ _ P1x)].
  - apply (py_min_is (A := binary64)).
    + intros v [<- | [<- | [<- | [<- | []]]]]; cbn [le binary64].
      * apply (E _ _ P1y).
      * apply (E _ _ P2y).
      * apply (eqb_leb_chain y0 y0 y1 p3y); auto. apply finite_number, G0.
      * apply (eqb_leb_chain y0 y0 y1 p4y); auto. apply finite_number, G0.
    + exists p1y. split; [left; reflexivity | apply (E _ _ P1y)].
  - apply (py_max_is (A := binary64)).
    + intros v [<- | [<- | [<- | [<- | []]]]]; cbn [le binary64].
      * apply (eqb_leb_chain p1x x0 x1 x1); auto. apply finite_number, F1.
      * apply (E _ _ P2x).
      * apply (eqb_leb_chain p3x x0 x1 x1); auto. apply finite_number, F1.
      * apply (E _ _ P4x).
    + exists p2x. split; [right; left; reflexivity | apply (E _ _ P2x)].
  - apply (py_max_is (A := binary64)).
    + intros v [<- | [<- | [<- | [<- | []]]]]; cbn [le binary64].
      * apply (eqb_leb_chain p1y y0 y1 y1); auto. apply finite_number, G1.
      * apply (eqb_leb_chain p2y y0 y1 y1); auto. apply finite_number, G1.
      * apply (E _ _ P3y).
      * apply (E _ _ P4y).
    + exists p3y. split; [right; right; left; reflexivity | apply (E _ _ P3y)].
Qed.

(** The inverse of a translation. *)
Lemma SFsub_zero_l (b : bool) (t : spec_float) :
  t <> S754_nan -> is_eq (SFcompare (SF64sub (S754_zero b) t) (SFopp t)) = true.
Proof.
  destruct t as [s | s | | s m e]; intros H; try congruence; unfold SF64sub, SFsub.
  - destruct b, s; reflexivity.
  - rewrite SFcompare_refl. reflexivity.
  - cbn [SFopp]. rewrite SFcompare_refl. reflexivity.
Qed.

Lemma sub_zero_l (z t : float) :
  (z =? 0) = true -> (t =? t) = true -> (z - t =? - t) = true.
Proof.
  intros Hz Ht. apply eqb_zero in Hz. destruct Hz as [b Hz].
  rewrite eqb_cmp, sub_spec, opp_spec, Hz. apply SFsub_zero_l, number_not_nan, Ht.
Qed.

Lemma opposite_translation (u v : float) :
  finite u = true -> finite v = true -> ((0 * v - 1 * u) * 1 =? - u) = true.
Proof.
  intros Hu Hv. rewrite (mul_one_l u Hu).
  assert (H : (0 * v - u =? - u) = true).
  { apply sub_zero_l; [apply mul_zero_l, Hv | apply finite_number, Hu]. }
  rewrite mul_one_r; [exact H | ].
  rewrite eqb_sym in H. apply (eqb_finite _ _ H). rewrite finite_opp. exact Hu.
Qed.

(** X5: [Matrix.translate(tx, ty).invert()] is the translation by
    [(-tx, -ty)] for all finite offsets: the determinant is 1, so [invert]
    returns a matrix, and its coefficients compare equal to those of
    [Matrix.translate(-tx, -ty)]. *)
Theorem invert_translate (tx ty : float) :
  finite tx = true -> finite ty = true ->
  exists m', Matrix.invert (Matrix.translate tx ty) = Ok (Some m') /\
             Matrix.eqb m' (Matrix.translate (- tx) (- ty)) = true.
Proof.
  intros Hx Hy. rewrite (invert_spec (A := binary64)).
  unfold Matrix.det, Matrix.translate, Matrix.adjugate_times.
  cbn [Matrix.a Matrix.b Matrix.c Matrix.d Matrix.e Matrix.f
       add sub mul quot neg fabs lt lit_0 lit_1 lit_1e_14 binary64].
  replace (abs (1 * 1 - 0 * 0) <? 1e-14) with false by (vm_compute; reflexivity).
  replace (1 / (1 * 1 - 0 * 0)) with 1 by (vm_compute; reflexivity).
  eexists. split; [reflexivity | ].
  unfold Matrix.eqb. cbn [Matrix.a Matrix.b Matrix.c Matrix.d Matrix.e Matrix.f eqf binary64].
  rewrite !andb_true_iff. repeat split; try (vm_compute; reflexivity).
  - apply opposite_translation; assumption.
  - apply opposite_translation; assumption.
Qed.

(** [abs] is never below zero. *)
Lemma abs_not_negative (x : float) :
  (abs x <? 0) = false /\ ((abs x =? abs x) = true -> (0 <=? abs x) = true).
Proof.
  rewrite ltb_cmp, leb_cmp, eqb_cmp, abs_spec, SFcompare_refl.
  replace (Prim2SF 0) with (S754_zero false) by (vm_compute; reflexivity).
  destruct (Prim2SF x) as [s | s | | s m e]; cbn; split; intros; try reflexivity;
    try discriminate.
Qed.

(** X7: [Rect.width] and [Rect.height] are never negative, whatever the
    rectangle (inverted, infinite or with NaN coordinates): [w < 0] is false,
    and [0 <= w] holds as soon as [w] is a number. *)
Theorem width_height_not_negative (r : Rect.t float) :
  (Rect.width r <? 0) = false /\ (Rect.height r <? 0) = false /\
  ((Rect.width r =? Rect.width r) = true -> (0 <=? Rect.width r) = true) /\
  ((Rect.height r =? Rect.height r) = true -> (0 <=? Rect.height r) = true).
Proof.
  unfold Rect.width, Rect.height. cbn [fabs sub binary64].
  repeat split; apply abs_not_negative.
Qed.

Lemma number_iff_not_nan (x : float) : (x =? x) = true <-> Prim2SF x <> S754_nan.
Proof.
  split; [apply number_not_nan | ]. intros H.
  rewrite eqb_cmp, SFcompare_refl. destruct (Prim2SF x); cbn; congruence.
Qed.

(** X8: [Point.__eq__] is symmetric and transitive, and a point equals itself
    exactly when none of its coordinates is a NaN; it does not tell 0.0 from
    -0.0. *)
Theorem point_eq_equivalence :
  (forall p q : Point.t float, Point.__eq__ p q = Point.__eq__ q p) /\
  (forall p q r : Point.t float,
     Point.__eq__ p q = true -> Point.__eq__ q r = true -> Point.__eq__ p r = true) /\
  (forall p : Point.t float,
     Point.__eq__ p p = true <->
     Prim2SF (Point.x p) <> S754_nan /\ Prim2SF (Point.y p) <> S754_nan) /\
  Point.__eq__ (Point.mk 0 0) (Point.mk (-0) (-0)) = true.
Proof.
  unfold Point.__eq__. cbn [eqf binary64]. split; [ | split; [ | split]].
  - intros p q. rewrite (eqb_sym (Point.x p)), (eqb_sym (Point.y p)). reflexivity.
  - intros p q r. rewrite !andb_true_iff. intros [H1 H2] [H3 H4].
    split; eapply eqb_trans; eassumption.
  - intros p. rewrite andb_true_iff, !number_iff_not_nan. reflexivity.
  - vm_compute. reflexivity.
Qed.

(** ** Associativity of [concat] *)

Lemma concat_assoc_exact (m1 m2 m3 : Matrix.t Q) :
  Matrix.eqb (Matrix.concat (Matrix.concat m1 m2) m3)
             (Matrix.concat m1 (Matrix.concat m2 m3)) = true.
Proof.
  destruct m1 as [a1 b1 c1 d1 e1 f1], m2 as [a2 b2 c2 d2 e2 f2],
    m3 as [a3 b3 c3 d3 e3 f3].
  unfold Matrix.eqb, Matrix.concat.
  cbn [Matrix.a Matrix.b Matrix.c Matrix.d Matrix.e Matrix.f add mul eqf exactQ].
  rewrite !andb_true_iff. repeat split; apply Qeq_bool_iff; ring.
Qed.

Lemma concat_assoc_no_rounding (m1 m2 m3 l r : Matrix.t float) :
  Matrix.concat (Matrix.concat (Matrix.map Some m1) (Matrix.map Some m2))
    (Matrix.map Some m3) = Matrix.map Some l ->
  Matrix.concat (Matrix.map Some m1)
    (Matrix.concat (Matrix.map Some m2) (Matrix.map Some m3)) = Matrix.map Some r ->
  Matrix.concat (Matrix.concat m1 m2) m3 = l /\
  Matrix.concat m1 (Matrix.concat m2 m3) = r /\
  Matrix.eqb l r = true.
Proof.
  destruct m1 as [a1 b1 c1 d1 e1 f1], m2 as [a2 b2 c2 d2 e2 f2],
    m3 as [a3 b3 c3 d3 e3 f3], l as [la lb lc ld le lf], r as [ra rb rc rd re rf].
  unfold Matrix.concat, Matrix.map, Matrix.eqb.
  cbn [Matrix.a Matrix.b Matrix.c Matrix.d Matrix.e Matrix.f
       add mul eqf trapping binary64].
  intros Hl Hr.
  injection Hl as Hla Hlb Hlc Hld Hle Hlf.
  injection Hr as Hra Hrb Hrc Hrd Hre Hrf.
  invert_exact.
  split; [reflexivity | ]. split; [reflexivity | ].
  rewrite !andb_true_iff.
  repeat split; apply value_eq_eqb; try assumption; rewrite_values; ring.
Qed.

(** X20: [Matrix.concat] is associative whenever the arithmetic is exact:
    for all matrices over the rationals, and in binary64 for all [m1], [m2],
    [m3] on which no product or sum of the two computations rounds (each runs
    to its end, [l] or [r], in the trapping arithmetic). *)
Theorem concat_associative :
  (forall m1 m2 m3 : Matrix.t Q,
     Matrix.eqb (Matrix.concat (Matrix.concat m1 m2) m3)
                (Matrix.concat m1 (Matrix.concat m2 m3)) = true) /\
  (forall m1 m2 m3 l r : Matrix.t float,
     Matrix.concat (Matrix.concat (Matrix.map Some m1) (Matrix.map Some m2))
       (Matrix.map Some m3) = Matrix.map Some l ->
     Matrix.concat (Matrix.map Some m1)
       (Matrix.concat (Matrix.map Some m2) (Matrix.map Some m3)) = Matrix.map Some r ->
     Matrix.eqb (Matrix.concat (Matrix.concat m1 m2) m3)
                (Matrix.concat m1 (Matrix.concat m2 m3)) = true).
Proof.
  split.
  - exact concat_assoc_exact.
  - intros m1 m2 m3 l r Hl Hr.
    destruct (concat_assoc_no_rounding m1 m2 m3 l r Hl Hr) as (-> & -> & H).
    exact H.
Qed.

(** With rounding the two groupings can differ in the last digit. *)
Example concat_not_associative_in_binary64 :
  let s := Matrix.scale 0.1%float 0.1%float in
  let t := Matrix.scale 0.3%float 0.3%float in
  Matrix.eqb (Matrix.concat (Matrix.concat s s) t)
             (Matrix.concat s (Matrix.concat s t)) = false.
Proof. vm_compute. reflexivity. Qed.

(** X20 in binary64 at Matrix(2, 1, 0, 3, 5, 7), Matrix(0.5, 0, 0, 0.25, 1, 2)
    and Matrix.translate(10, 20), where nothing rounds. *)
Lemma concat_associative_witness :
  let m1 : Matrix.t float := Matrix.mk 2%float 1%float 0%float 3%float 5%float 7%float in
  let m2 : Matrix.t float := Matrix.mk 0.5%float 0%float 0%float 0.25%float 1%float 2%float in
  let m3 : Matrix.t float := Matrix.translate 10%float 20%float in
  Matrix.eqb (Matrix.concat (Matrix.concat m1 m2) m3)
             (Matrix.concat m1 (Matrix.concat m2 m3)) = true.
Proof.
  cbv zeta.
  apply (proj2 concat_associative _ _ _
    (Matrix.concat (Matrix.concat (Matrix.mk 2%float 1%float 0%float 3%float 5%float 7%float)
        (Matrix.mk 0.5%float 0%float 0%float 0.25%float 1%float 2%float))
        (Matrix.translate 10%float 20%float))
    (Matrix.concat (Matrix.mk 2%float 1%float 0%float 3%float 5%float 7%float)
        (Matrix.concat (Matrix.mk 0.5%float 0%float 0%float 0.25%float 1%float 2%float)
        (Matrix.translate 10%float 20%float))));
    vm_compute; reflexivity.
Defined.

(** ** Rectangles in binary64 *)

(** X9: a rectangle contains some point exactly when it is normalized
    ([x0 <= x1] and [y0 <= y1]); an inverted rectangle, or one with a NaN
    coordinate, contains no point at all. *)
Theorem contains_some_point_iff_normalized (r : Rect.t float) :
  (exists p, Rect.contains r p = true) <-> Rect.normalized r = true.
Proof. symmetry. apply (normalized_iff_inhabited (A := binary64)). Qed.

(** X10: the union covers both rectangles: a point of [r] is in
    [r.union(s)], and so is a point of [s] when the coordinates of [r] are
    numbers. *)
Theorem union_covers (r s : Rect.t float) (p : Point.t float) :
  (Rect.contains r p = true -> Rect.contains (Rect.union r s) p = true) /\
  (Rect.numbers r = true -> Rect.contains s p = true ->
   Rect.contains (Rect.union r s) p = true).
Proof.
  split.
  - apply (union_covers_first (A := binary64)).
  - apply (union_covers_second (A := binary64)).
Qed.

(** X10 at the two overlapping squares Rect(0, 0, 100, 100) and
    Rect(50, 50, 150, 150) and a point of the second only. *)
Lemma union_covers_witness :
  Rect.contains (Rect.union (Rect.mk 0 0 100 100) (Rect.mk 50 50 150 150))
                (Point.mk 120 120) = true.
Proof.
  apply (proj2 (union_covers (Rect.mk 0 0 100 100) (Rect.mk 50 50 150 150)
                             (Point.mk 120 120)));
    vm_compute; reflexivity.
Defined.

(** The coordinates of the receiver have to be numbers: [min] and [max]
    keep a NaN that comes first, and the union then contains nothing. *)
Example union_of_nan :
  Rect.contains (Rect.union (Rect.mk nan 0 1 1) (Rect.mk 0 0 1 1))
                (Point.mk 0.5 0.5) = false /\
  Rect.contains (Rect.union (Rect.mk 0 0 1 1) (Rect.mk nan 0 1 1))
                (Point.mk 0.5 0.5) = true.
Proof. split; vm_compute; reflexivity. Qed.

(** X11: on rectangles whose coordinates are numbers, [intersect] is the
    intersection: a point is in [r.intersect(s)] exactly when it is in [r]
    and in [s]. *)
Theorem intersect_is_intersection (r s : Rect.t float) (p : Point.t float) :
  Rect.numbers r = true -> Rect.numbers s = true ->
  Rect.contains (Rect.intersect r s) p = Rect.contains r p && Rect.contains s p.
Proof. apply (intersect_contains (A := binary64)). Qed.

(** X11 at the two overlapping squares and a point of both. *)
Lemma intersect_is_intersection_witness :
  Rect.contains (Rect.intersect (Rect.mk 0 0 100 100) (Rect.mk 50 50 150 150))
                (Point.mk 75 75) = true.
Proof.
  rewrite (intersect_is_intersection (Rect.mk 0 0 100 100) (Rect.mk 50 50 150 150)
             (Point.mk 75 75));
    vm_compute; reflexivity.
Defined.



(** ** Quads *)

(** X13: the detour through a quad is [Rect.transform]: the bounds of the
    transformed quad of [r] are the rectangle that
    cross_language_overhead.py's [Rect.transform] computes in line, and the
    one benchmark.py's computes from its list of corners. *)
Theorem quad_path_is_rect_transform (r : Rect.t float) (m : Matrix.t float) :
  Quad.to_rect (Quad.transform (Quad.from_rect r) m) = Ok (Rect.transform r m) /\
  Quad.to_rect (Quad.transform (Quad.from_rect r) m) = Rect.transform_corners r m.
Proof. split; reflexivity. Qed.

(** X14: for any quad whose coordinates are numbers, [to_rect] returns a
    normalized rectangle that contains the four corners of the quad. *)
Theorem to_rect_covers (q : Quad.t float) :
  (forall c, In c [Quad.ul q; Quad.ur q; Quad.ll q; Quad.lr q] ->
     (Point.x c =? Point.x c) = true /\ (Point.y c =? Point.y c) = true) ->
  exists box,
    Quad.to_rect q = Ok box /\
    Rect.normalized box = true /\
    forall c, In c [Quad.ul q; Quad.ur q; Quad.ll q; Quad.lr q] ->
      Rect.contains box c = true.
Proof.
  intros Hn. eexists. split; [reflexivity | ].
  set (xs := [Point.x (Quad.ul q); Point.x (Quad.ur q);
              Point.x (Quad.ll q); Point.x (Quad.lr q)]).
  set (ys := [Point.y (Quad.ul q); Point.y (Quad.ur q);
              Point.y (Quad.ll q); Point.y (Quad.lr q)]).
  assert (Hx : forall v, In v xs -> number v = true).
  { intros v [<- | [<- | [<- | [<- | []]]]]; apply Hn; cbn; auto. }
  assert (Hy : forall v, In v ys -> number v = true).
  { intros v [<- | [<- | [<- | [<- | []]]]]; apply Hn; cbn; auto. }
  split.
  - unfold Rect.normalized. cbn [Rect.x0 Rect.y0 Rect.x1 Rect.y1].
    apply andb_true_iff.
    split; apply (py_min_le_py_max (A := binary64)); assumption.
  - intros c Hc. apply (contains_iff (A := binary64)).
    cbn [Rect.x0 Rect.y0 Rect.x1 Rect.y1].
    assert (Hcx : In (Point.x c) xs).
    { destruct Hc as [<- | [<- | [<- | [<- | []]]]]; cbn; auto. }
    assert (Hcy : In (Point.y c) ys).
    { destruct Hc as [<- | [<- | [<- | [<- | []]]]]; cbn; auto. }
    repeat split;
      first [ apply (py_min_lower (A := binary64)); assumption
            | apply (py_max_upper (A := binary64)); assumption ].
Qed.

(** X14 at a quad that is no rectangle, the diamond with corners (1, 0),
    (2, 1), (0, 1) and (1, 2): its bounds are Rect(0, 0, 2, 2). *)
Lemma to_rect_covers_witness :
  let q : Quad.t float :=
    Quad.mk (Point.mk 1 0) (Point.mk 2 1) (Point.mk 0 1) (Point.mk 1 2) in
  Quad.to_rect q = Ok (Rect.mk 0 0 2 2) /\
  exists box, Quad.to_rect q = Ok box /\ Rect.normalized box = true /\
    forall c, In c [Quad.ul q; Quad.ur q; Quad.ll q; Quad.lr q] ->
      Rect.contains box c = true.
Proof.
  cbv zeta. split; [vm_compute; reflexivity | ].
  apply (to_rect_covers
           (Quad.mk (Point.mk 1 0) (Point.mk 2 1) (Point.mk 0 1) (Point.mk 1 2))).
  intros c [<- | [<- | [<- | [<- | []]]]]; vm_compute; split; reflexivity.
Defined.

(** ** The bounding-box loop *)

Lemma bbox_loop_numbers_covers (items : list (Rect.t float)) :
  forall bbox : Rect.t float,
  Rect.numbers bbox = true ->
  (forall r, In r items -> Rect.numbers r = true) ->
  Rect.numbers (bbox_loop bbox items) = true /\
  forall r p, In r (bbox :: items) -> Rect.contains r p = true ->
    Rect.contains (bbox_loop bbox items) p = true.
Proof.
  induction items as [ | item items IH]; intros bbox Hb Hi.
  - split; [exact Hb | ]. intros r p [<- | []] H. exact H.
  - cbn [bbox_loop fold_left].
    assert (Hitem : Rect.numbers item = true) by (apply Hi; left; reflexivity).
    destruct (IH (Rect.union bbox item)) as [Hn Hc].
    + apply (union_numbers (A := binary64)); assumption.
    + intros r Hr. apply Hi. right. exact Hr.
    + split; [exact Hn | ]. intros r p [<- | [<- | Hr]] H.
      * apply (Hc (Rect.union bbox item)); [left; reflexivity | ].
        apply (union_covers_first (A := binary64)), H.
      * apply (Hc (Rect.union bbox item)); [left; reflexivity | ].
        apply (union_covers_second (A := binary64)); assumption.
      * apply (Hc r); [right; exact Hr | exact H].
Qed.

Lemma bbox_loop_selects (items : list (Rect.t float)) :
  forall bbox : Rect.t float,
  In (Rect.x0 (bbox_loop bbox items)) (map Rect.x0 (bbox :: items)) /\
  In (Rect.y0 (bbox_loop bbox items)) (map Rect.y0 (bbox :: items)) /\
  In (Rect.x1 (bbox_loop bbox items)) (map Rect.x1 (bbox :: items)) /\
  In (Rect.y1 (bbox_loop bbox items)) (map Rect.y1 (bbox :: items)).
Proof.
  induction items as [ | item items IH]; intros bbox.
  - cbn. auto.
  - cbn [bbox_loop fold_left].
    destruct (IH (Rect.union bbox item)) as (H1 & H2 & H3 & H4).
    assert (K : forall (g : Rect.t float -> float) v,
              In (g (Rect.union bbox item)) [g bbox; g item] ->
              In v (map g (Rect.union bbox item :: items)) ->
              In v (map g (bbox :: item :: items))).
    { intros g v Hu [<- | Hv].
      - destruct Hu as [<- | [<- | []]]; cbn; auto.
      - cbn. auto. }
    unfold bbox_loop in *.
    repeat split; (eapply K; [ | eassumption]); unfold Rect.union;
      cbn [Rect.x0 Rect.y0 Rect.x1 Rect.y1];
      first [apply (py_min_In (A := binary64)) | apply (py_max_In (A := binary64))].
Qed.

(** X15: the loop [for item in items: bbox = bbox.union(item)] ends with a
    rectangle that contains every point of the start rectangle and of each
    item, when all coordinates are numbers; each of its four bounds is the
    same bound of the start rectangle or of one of the items. *)
Theorem bbox_loop_bounds (bbox : Rect.t float) (items : list (Rect.t float)) :
  Rect.numbers bbox = true ->
  (forall r, In r items -> Rect.numbers r = true) ->
  (forall r p, In r (bbox :: items) -> Rect.contains r p = true ->
     Rect.contains (bbox_loop bbox items) p = true) /\
  In (Rect.x0 (bbox_loop bbox items)) (map Rect.x0 (bbox :: items)) /\
  In (Rect.y0 (bbox_loop bbox items)) (map Rect.y0 (bbox :: items)) /\
  In (Rect.x1 (bbox_loop bbox items)) (map Rect.x1 (bbox :: items)) /\
  In (Rect.y1 (bbox_loop bbox items)) (map Rect.y1 (bbox :: items)).
Proof.
  intros Hb Hi. split.
  - apply bbox_loop_numbers_covers; assumption.
  - apply bbox_loop_selects.
Qed.

(** The run of the benchmark ends with Rect(0, 0, 190, 110). *)
Example bbox_of_ten_items :
  bbox_loop bbox_start ten_items = Rect.mk 0 0 190 110.
Proof. vm_compute. reflexivity. Qed.

(** X15 at the benchmark's loop and the point (185, 100) of the last item. *)
Lemma bbox_loop_bounds_witness :
  Rect.contains (bbox_loop bbox_start ten_items) (Point.mk 185 100) = true.
Proof.
  assert (Hitems : forall r, In r ten_items -> Rect.numbers r = true).
  { intros r H.
    repeat (destruct H as [<- | H]; [vm_compute; reflexivity | ]). destruct H. }
  apply (proj1 (bbox_loop_bounds bbox_start ten_items eq_refl Hitems)
           (Rect.mk 90 90 190 110) (Point.mk 185 100)).
  - right. do 9 right. left. vm_compute. reflexivity.
  - vm_compute. reflexivity.
Defined.

(** X16: the start rectangle Rect(1e30, 1e30, -1e30, -1e30) of the loop is
    neutral for [union] on every rectangle whose lower bounds are at most
    1e30 and whose upper bounds are at least -1e30: the union compares equal
    to the rectangle, coordinate by coordinate. *)
Theorem bbox_start_is_neutral (r : Rect.t float) :
  (Rect.x0 r <=? 1e30) = true -> (Rect.y0 r <=? 1e30) = true ->
  (-1e30 <=? Rect.x1 r) = true -> (-1e30 <=? Rect.y1 r) = true ->
  Rect.eqb (Rect.union bbox_start r) r = true.
Proof.
  destruct r as [x0 y0 x1 y1].
  unfold Rect.eqb, Rect.union, bbox_start, py_min, py_max, gt.
  cbn [fold_left Rect.x0 Rect.y0 Rect.x1 Rect.y1 lt eqf binary64].
  intros H0 G0 H1 G1. rewrite !andb_true_iff.
  assert (Hmin : forall v, (v <=? 1e30) = true ->
                 ((if v <? 1e30 then v else 1e30) =? v) = true).
  { intros v H. destruct (v <? 1e30) eqn:E.
    - exact (le_number_l (A := binary64) _ _ H).
    - rewrite eqb_sym. apply (le_not_lt_eq (A := binary64)); assumption. }
  assert (Hmax : forall v, (-1e30 <=? v) = true ->
                 ((if -1e30 <? v then v else -1e30) =? v) = true).
  { intros v H. destruct (-1e30 <? v) eqn:E.
    - exact (le_number_r (A := binary64) _ _ H).
    - apply (le_not_lt_eq (A := binary64)); assumption. }
  repeat split; auto.
Qed.

(** X16 at the first item of the benchmark, Rect(0, 0, 100, 20). *)
Lemma bbox_start_is_neutral_witness :
  Rect.eqb (Rect.union bbox_start (Rect.mk 0 0 100 20)) (Rect.mk 0 0 100 20) = true.
Proof.
  apply (bbox_start_is_neutral (Rect.mk 0 0 100 20)); vm_compute; reflexivity.
Defined.

(** Beyond 1e30 the start rectangle is not neutral. *)
Example bbox_start_not_neutral_beyond :
  Rect.eqb (Rect.union bbox_start (Rect.mk 2e30 0 3e30 1)) (Rect.mk 2e30 0 3e30 1) = false.
Proof. vm_compute. reflexivity. Qed.

(** ** Buffers, continued *)



(** X18: [append_data] after [from_slice]: the buffer of [d] extended by [e]
    holds [d] followed by [e], its length is the sum of the two lengths, and
    two appends are one append of the concatenation. *)
Theorem buffer_append_laws (d e1 e2 : list byte) :
  exists buf,
    Buffer.from_slice d = Ok buf /\
    Buffer._data (Buffer.append_data buf e1) = (d ++ e1)%list /\
    Buffer.len (Buffer._data (Buffer.append_data buf e1)) =
      (Buffer.len d + Buffer.len e1)%Z /\
    Buffer.append_data (Buffer.append_data buf e1) e2 =
      Buffer.append_data buf (e1 ++ e2)%list.
Proof.
  exists (Buffer.mk d).
  unfold Buffer.from_slice, Buffer.__init__, Buffer.bytearray.
  rewrite len_nonneg. cbn [rbind Buffer._data].
  rewrite setslice_all_replaces.
  unfold Buffer.append_data, Buffer.len. cbn [Buffer._data].
  repeat split.
  - rewrite length_app. lia.
  - rewrite app_assoc. reflexivity.
Qed.

(** ** Integer rectangles *)

(** X19: the width and the height of an [IRect] are never negative, are zero
    exactly when the two bounds coincide, and do not change when the two
    corners are exchanged. *)
Theorem irect_extents (r : IRect.t) :
  (0 <= IRect.width r /\ 0 <= IRect.height r)%Z /\
  (IRect.width r = 0%Z <-> IRect.x0 r = IRect.x1 r) /\
  (IRect.height r = 0%Z <-> IRect.y0 r = IRect.y1 r) /\
  IRect.width (IRect.mk (IRect.x1 r) (IRect.y1 r) (IRect.x0 r) (IRect.y0 r)) = IRect.width r /\
  IRect.height (IRect.mk (IRect.x1 r) (IRect.y1 r) (IRect.x0 r) (IRect.y0 r)) = IRect.height r.
Proof.
  destruct r as [x0 y0 x1 y1]. unfold IRect.width, IRect.height.
  cbn [IRect.x0 IRect.y0 IRect.x1 IRect.y1]. lia.
Qed.

(** ** The laws above at the values of the benchmarks *)

(** X1 at Point(10, 20). *)
Lemma transform_identity_witness :
  Point.__eq__ (Point.transform (Point.mk 10 20) Matrix.identity) (Point.mk 10 20) = true.
Proof. apply (transform_identity (Point.mk 10 20)). vm_compute. reflexivity. Defined.

(** X2 at the text position Point(72, 700) moved by
    Matrix.translate(0, -14). *)
Lemma transform_translate_witness :
  Point.__eq__ (Point.transform (Point.mk 72 700) (Matrix.translate 0 (-14)))
               (Point.mk (72 + 0) (700 + -14)) = true.
Proof.
  apply (transform_translate (Point.mk 72 700) 0 (-14)); vm_compute; reflexivity.
Defined.

(** X3 at Point(10, 20) and Matrix.scale(2, 2). *)
Lemma transform_scale_witness :
  Point.__eq__ (Point.transform (Point.mk 10 20) (Matrix.scale 2 2))
               (Point.mk (10 * 2) (20 * 2)) = true.
Proof.
  apply (transform_scale (Point.mk 10 20) 2 2); vm_compute; reflexivity.
Defined.

(** X4 at Matrix.scale(2, 3). *)
Lemma concat_identity_witness :
  Matrix.eqb (Matrix.concat (Matrix.scale 2 3) Matrix.identity) (Matrix.scale 2 3) = true /\
  Matrix.eqb (Matrix.concat Matrix.identity (Matrix.scale 2 3)) (Matrix.scale 2 3) = true.
Proof. apply (concat_identity (Matrix.scale 2 3)). vm_compute. reflexivity. Defined.

(** X5 at Matrix.translate(100, 100). *)
Lemma invert_translate_witness :
  exists m', Matrix.invert (Matrix.translate 100 100) = Ok (Some m') /\
             Matrix.eqb m' (Matrix.translate (-100) (-100)) = true.
Proof. apply (invert_translate 100 100); vm_compute; reflexivity. Defined.

(** X6 at the page rectangle Rect(0, 0, 612, 792). *)
Lemma rect_transform_identity_witness :
  Rect.eqb (Rect.transform (Rect.mk 0 0 612 792) Matrix.identity)
           (Rect.mk 0 0 612 792) = true.
Proof.
  apply (rect_transform_identity (Rect.mk 0 0 612 792)); vm_compute; reflexivity.
Defined.
